(** * Schelling segregation model: a shallow embedding of [schelling.py]

    The class [SchellingModel] of the source is embedded as a record of its
    attributes together with one function per method.  The two kinds of effect
    of the source are made explicit:

    - the module-level generator behind [random.randint] is a tape of raw
      draws that is consumed from the left;
    - Python exceptions are a constructor of the result type.

    The rejection-sampling loops of the source have no bound of their own; in
    the embedding they recurse on the tape, and a loop that uses the tape up
    without leaving is reported as [Starved]. *)

From stdpp Require Import base list.
From Stdlib Require Import ZArith Lia Floats.
Import ListNotations.
Local Open Scope Z_scope.

(** ** Results of effectful code *)

Inductive exn : Type :=
  | AssertionError
  | IndexError
  | ValueError
  | ZeroDivisionError.

Inductive result (A : Type) : Type :=
  | Ok (a : A)
  | Raise (e : exn)
  | Starved.

Arguments Ok {A} a.
Arguments Raise {A} e.
Arguments Starved {A}.

#[global] Instance result_ret : MRet result := fun _ a => Ok a.

#[global] Instance result_bind : MBind result := fun _ _ k r =>
  match r with
  | Ok a => k a
  | Raise e => Raise e
  | Starved => Starved
  end.

(** ** Python lists indexed by integers

    A negative index counts from the end; an index outside the list raises
    [IndexError], for reading and for writing alike. *)

Definition py_norm {A : Type} (l : list A) (i : Z) : Z :=
  if i <? 0 then i + Z.of_nat (length l) else i.

Definition py_getitem {A : Type} (l : list A) (i : Z) : result A :=
  let k := py_norm l i in
  if k <? 0 then Raise IndexError
  else match l !! Z.to_nat k with
       | Some a => Ok a
       | None => Raise IndexError
       end.

Definition py_setitem {A : Type} (l : list A) (i : Z) (v : A) : result (list A) :=
  let k := py_norm l i in
  if (k <? 0) || (Z.of_nat (length l) <=? k) then Raise IndexError
  else Ok (<[Z.to_nat k := v]> l).

(** [range(n)] of the source. *)
Definition range (n : Z) : list Z :=
  map Z.of_nat (seq 0 (Z.to_nat n)).

(** ** The random source

    [random.randint(lo, hi)] returns an integer of the closed range, and raises
    [ValueError] on an empty range.  The generator is abstracted as the tape of
    raw values it is going to deliver; a raw value is reduced into the range. *)

Abbreviation tape := (list Z).

Definition randint (lo hi : Z) (t : tape) : result (Z * tape) :=
  if hi <? lo then Raise ValueError
  else match t with
       | [] => Starved
       | v :: t' => Ok (lo + v mod (hi - lo + 1), t')
       end.

(** ** Numbers

    The floats of the source are IEEE binary64 values, which is what the
    primitive floats are.  [truediv a b] is the source's [a / b] on two
    integers with [b] not zero: both operands are converted exactly as long as
    they stay below [2^53] in magnitude, which the counts of cells of a grid
    held in memory do. *)

Definition float_of_Z (z : Z) : float :=
  if z <? 0 then PrimFloat.opp (PrimFloat.of_uint63 (Uint63.of_Z (- z)))
  else PrimFloat.of_uint63 (Uint63.of_Z z).

Definition truediv (a b : Z) : float :=
  PrimFloat.div (float_of_Z a) (float_of_Z b).

(** ** The grid *)

(** A cell holds [None], ["A"] or ["B"]. *)
Inductive Cell : Type :=
  | Empty
  | TypeA
  | TypeB.

(** Truth value of a cell, as [while self.grid[x][y]:] tests it. *)
Definition truthy (c : Cell) : bool :=
  match c with
  | Empty => false
  | TypeA | TypeB => true
  end.

Definition Cell_eqb (c d : Cell) : bool :=
  match c, d with
  | Empty, Empty | TypeA, TypeA | TypeB, TypeB => true
  | _, _ => false
  end.

Abbreviation Grid := (list (list Cell)).
Abbreviation Position := (Z * Z)%type.

(** [grid[x][y]] *)
Definition grid_get (g : Grid) (p : Position) : result Cell :=
  row ← py_getitem g (fst p);
  py_getitem row (snd p).

(** [grid[x][y] = v]: the row object is fetched, then updated in place. *)
Definition grid_set (g : Grid) (p : Position) (v : Cell) : result Grid :=
  row ← py_getitem g (fst p);
  row' ← py_setitem row (snd p) v;
  py_setitem g (fst p) row'.

(** ** The model object *)

Record SchellingModel : Type := mkModel {
  x_size : Z;
  y_size : Z;
  n_agents : Z;
  share_a : float;
  stay_threshold : float;
  grid : Grid;
  segregation_shares : list float;
  steps_run : Z
}.

Definition with_grid (m : SchellingModel) (g : Grid) : SchellingModel :=
  mkModel (x_size m) (y_size m) (n_agents m) (share_a m) (stay_threshold m)
          g (segregation_shares m) (steps_run m).

(** ** Neighbour analysis *)

Definition Position_eqb (p q : Position) : bool :=
  (fst p =? fst q) && (snd p =? snd q).

(** [__get_neighbor_positions] *)
Definition get_neighbor_positions (m : SchellingModel) (position : Position)
  : list Position :=
  flat_map (fun i =>
    let x := fst position + i in
    flat_map (fun j =>
      let y := snd position + j in
      if (0 <=? x) && (x <? x_size m) && (0 <=? y) && (y <? y_size m)
         && negb (Position_eqb (x, y) position)
      then [(x, y)] else [])
      [-1; 0; 1])
    [-1; 0; 1].

(** The loop of [__count_neighbors] over the neighbours. *)
Fixpoint count_loop (g : Grid) (neighbors : list Position) (a_count b_count : Z)
  : result (Z * Z) :=
  match neighbors with
  | [] => Ok (a_count, b_count)
  | p :: rest =>
      c ← grid_get g p;
      match c with
      | TypeA => count_loop g rest (a_count + 1) b_count
      | TypeB => count_loop g rest a_count (b_count + 1)
      | Empty => count_loop g rest a_count b_count
      end
  end.

(** [__count_neighbors] *)
Definition count_neighbors (m : SchellingModel) (position : Position)
  : result (Z * Z) :=
  count_loop (grid m) (get_neighbor_positions m position) 0 0.

(** [__get_neighbor_relation].  The source returns the integer [1] in the two
    branches without an opposite neighbour; it is the number [1.0] in every
    comparison made with it. *)
Definition get_neighbor_relation (m : SchellingModel) (position : Position)
  : result float :=
  '(a_count, b_count) ← count_neighbors m position;
  c ← grid_get (grid m) position;
  match c with
  | TypeA => if b_count =? 0 then Ok 1%float else Ok (truediv a_count b_count)
  | TypeB => if a_count =? 0 then Ok 1%float else Ok (truediv b_count a_count)
  | Empty => Ok 1%float
  end.

(** ** Placement and search *)

(** [__find_empty_cell]: draw a position until the cell drawn is not occupied.
    Every round takes two draws off the tape, so the length of the tape bounds
    the number of rounds and serves as the measure of the loop. *)
Fixpoint find_empty_loop (rounds : nat) (g : Grid) (t : tape)
  : result (Position * tape) :=
  match rounds with
  | O => Starved
  | S rounds' =>
      '(new_x_pos, t1) ← randint 0 (Z.of_nat (length g) - 1) t;
      row0 ← py_getitem g 0;
      '(new_y_pos, t2) ← randint 0 (Z.of_nat (length row0) - 1) t1;
      c ← grid_get g (new_x_pos, new_y_pos);
      if truthy c then find_empty_loop rounds' g t2
      else Ok ((new_x_pos, new_y_pos), t2)
  end.

Definition find_empty_cell (g : Grid) (t : tape) : result (Position * tape) :=
  find_empty_loop (S (length t)) g t.

(** [__find_full_cell]: draw a position until the cell drawn is occupied; the
    ranges come from [x_size] and [y_size]. *)
Fixpoint find_full_loop (rounds : nat) (m : SchellingModel) (t : tape)
  : result (Position * tape) :=
  match rounds with
  | O => Starved
  | S rounds' =>
      '(new_x_pos, t1) ← randint 0 (x_size m - 1) t;
      '(new_y_pos, t2) ← randint 0 (y_size m - 1) t1;
      c ← grid_get (grid m) (new_x_pos, new_y_pos);
      if truthy c then Ok ((new_x_pos, new_y_pos), t2)
      else find_full_loop rounds' m t2
  end.

Definition find_full_cell (m : SchellingModel) (t : tape)
  : result (Position * tape) :=
  find_full_loop (S (length t)) m t.

(** ** Construction *)

Definition assert (b : bool) : result unit :=
  if b then Ok tt else Raise AssertionError.

(** [__check_inputs] *)
Definition check_inputs (m : SchellingModel) : result unit :=
  _ ← assert ((1 <? x_size m) && (1 <? y_size m));
  _ ← assert (n_agents m <? x_size m * y_size m);
  _ ← assert (1 <? n_agents m);
  _ ← assert (PrimFloat.leb 0 (share_a m) && PrimFloat.leb (share_a m) 1);
  assert (PrimFloat.leb 0 (stay_threshold m) && PrimFloat.leb (stay_threshold m) 1).

(** One of the two placement loops of [__initialize_grid]. *)
Fixpoint place (count : nat) (c : Cell) (g : Grid) (t : tape)
  : result (Grid * tape) :=
  match count with
  | O => Ok (g, t)
  | S count' =>
      '(new_pos, t1) ← find_empty_cell g t;
      g1 ← grid_set g new_pos c;
      place count' c g1 t1
  end.

(** [__initialize_grid].  [math.floor(n_agents / 2)] is the floored quotient
    and [math.ceil(n_agents)] is [n_agents] itself. *)
Definition initialize_grid (m : SchellingModel) (t : tape)
  : result (SchellingModel * tape) :=
  let g0 := replicate (Z.to_nat (x_size m)) (replicate (Z.to_nat (y_size m)) Empty) in
  '(g1, t1) ← place (Z.to_nat (n_agents m / 2)) TypeA g0 t;
  '(g2, t2) ← place (Z.to_nat (n_agents m)) TypeB g1 t1;
  Ok (with_grid m g2, t2).

(** [__init__]; the grid attribute is [None] until [__initialize_grid] sets
    it, which the empty list stands for. *)
Definition init (grid_size : Z * Z) (agents : Z) (share threshold : float)
    (t : tape) : result (SchellingModel * tape) :=
  let m := mkModel (fst grid_size) (snd grid_size) agents share threshold [] [] 0 in
  _ ← check_inputs m;
  initialize_grid m t.

(** ** The step *)

(** [__run_one_step] *)
Definition run_one_step (m : SchellingModel) (t : tape)
  : result (SchellingModel * tape) :=
  '(chosen_agent, t1) ← find_full_cell m t;
  equals ← get_neighbor_relation m chosen_agent;
  if PrimFloat.ltb equals (stay_threshold m) then
    '(new_pos, t2) ← find_empty_cell (grid m) t1;
    v ← grid_get (grid m) chosen_agent;
    g1 ← grid_set (grid m) new_pos v;
    g2 ← grid_set g1 chosen_agent Empty;
    Ok (with_grid m g2, t2)
  else Ok (m, t1).

(** ** The metric *)

(** A [for] loop over a list with an accumulator. *)
Fixpoint for_each {A S : Type} (l : list A) (s : S) (body : S -> A -> result S)
  : result S :=
  match l with
  | [] => Ok s
  | a :: l' => s' ← body s a; for_each l' s' body
  end.

(** The two nested loops of [get_segregation]. *)
Definition count_staying (m : SchellingModel) : result Z :=
  for_each (range (Z.of_nat (length (grid m)))) 0 (fun staying i =>
    row0 ← py_getitem (grid m) 0;
    for_each (range (Z.of_nat (length row0))) staying (fun staying j =>
      c ← grid_get (grid m) (i, j);
      if truthy c then
        neighbor_relation ← get_neighbor_relation m (i, j);
        if PrimFloat.leb (stay_threshold m) neighbor_relation
        then Ok (staying + 1) else Ok staying
      else Ok staying)).

(** [get_segregation] *)
Definition get_segregation (m : SchellingModel) : result float :=
  staying ← count_staying m;
  if n_agents m =? 0 then Raise ZeroDivisionError
  else Ok (truediv staying (n_agents m)).

(** ** The run loop *)

(** What reaches the console: [clear_output()] and [print_schelling()], the
    latter recorded with the grid it renders. *)
Inductive event : Type :=
  | Clear
  | Print (g : Grid).

Definition show (m : SchellingModel) (out : list event) : list event :=
  out ++ [Clear; Print (grid m)].

(** [a % b] on integers. *)
Definition py_mod (a b : Z) : result Z :=
  if b =? 0 then Raise ZeroDivisionError else Ok (a mod b).

Definition count_step (m : SchellingModel) : SchellingModel :=
  mkModel (x_size m) (y_size m) (n_agents m) (share_a m) (stay_threshold m)
          (grid m) (segregation_shares m) (steps_run m + 1).

Definition record_share (m : SchellingModel) (s : float) : SchellingModel :=
  mkModel (x_size m) (y_size m) (n_agents m) (share_a m) (stay_threshold m)
          (grid m) (segregation_shares m ++ [s]) (steps_run m).

Abbreviation World := (SchellingModel * tape * list event)%type.

(** One round of the body of the [for] loop of [run]. *)
Definition run_body (print_every : Z) (w : World) : result World :=
  let '(m, t, out) := w in
  '(m1, t1) ← run_one_step m t;
  let m2 := count_step m1 in
  s ← get_segregation m2;
  let m3 := record_share m2 s in
  r ← py_mod (steps_run m3) print_every;
  Ok (m3, t1, if r =? 0 then show m3 out else out).

Fixpoint run_loop (steps : nat) (print_every : Z) (w : World) : result World :=
  match steps with
  | O => Ok w
  | S steps' => w' ← run_body print_every w; run_loop steps' print_every w'
  end.

(** [run] *)
Definition run (steps : Z) (print_at_end : bool) (print_every : Z) (w : World)
  : result World :=
  '(m, t, out) ← run_loop (Z.to_nat steps) print_every w;
  Ok (m, t, if print_at_end then show m out else out).

(** ** Shapes and bounds *)

Definition in_bounds (m : SchellingModel) (p : Position) : Prop :=
  (0 <= fst p < x_size m) /\ (0 <= snd p < y_size m).

(** A grid of [xs] rows of [ys] cells each. *)
Definition shaped (xs ys : Z) (g : Grid) : Prop :=
  Z.of_nat (length g) = xs /\ Forall (fun row => Z.of_nat (length row) = ys) g.

Definition grid_wf (m : SchellingModel) : Prop :=
  shaped (x_size m) (y_size m) (grid m).

(** ** Vocabulary of the statements *)

(** The cell in row [kx], column [ky], counted from zero. *)
Definition cell_at (g : Grid) (kx ky : nat) : option Cell :=
  row ← g !! kx; row !! ky.

(** Number of cells of a row, and of a grid, that hold [c]. *)
Definition tally_row (c : Cell) (row : list Cell) : nat :=
  length (List.filter (Cell_eqb c) row).

Fixpoint tally (c : Cell) (g : Grid) : nat :=
  match g with
  | [] => 0%nat
  | row :: g' => (tally_row c row + tally c g')%nat
  end.

Definition occupied (g : Grid) : nat := (tally TypeA g + tally TypeB g)%nat.

Definition hit (c d : Cell) : nat := if Cell_eqb c d then 1%nat else 0%nat.

(** Whether position [p] of the grid holds [c]. *)
Definition holds (g : Grid) (c : Cell) (p : Position) : bool :=
  match grid_get g p with
  | Ok d => Cell_eqb c d
  | _ => false
  end.

(** Number of neighbours of [position] that hold [c]. *)
Definition neighbors_holding (m : SchellingModel) (c : Cell) (position : Position) : Z :=
  Z.of_nat (length (List.filter (holds (grid m) c) (get_neighbor_positions m position))).

Definition relation_of (c : Cell) (a_count b_count : Z) : float :=
  match c with
  | TypeA => if b_count =? 0 then 1%float else truediv a_count b_count
  | TypeB => if a_count =? 0 then 1%float else truediv b_count a_count
  | Empty => 1%float
  end.

(** [stepped k w w' shares]: [k] rounds, each one call of the step followed by
    the increment of the counter and the recording of the share measured on
    the grid the step left, lead from [w] to [w'] and record [shares]. *)
Inductive stepped : nat -> SchellingModel * tape -> SchellingModel * tape
                    -> list float -> Prop :=
  | stepped_O (w : SchellingModel * tape) : stepped O w w []
  | stepped_S (k : nat) (m m1 : SchellingModel) (t t1 : tape) (s : float)
      (w' : SchellingModel * tape) (shares : list float) :
      run_one_step m t = Ok (m1, t1) ->
      get_segregation (count_step m1) = Ok s ->
      stepped k (record_share (count_step m1) s, t1) w' shares ->
      stepped (S k) (m, t) w' (s :: shares).


Fixpoint sumZ {A : Type} (w : A -> Z) (l : list A) : Z :=
  match l with
  | [] => 0
  | a :: l' => w a + sumZ w l'
  end.

Definition Z_of_bool (b : bool) : Z := if b then 1 else 0.

(** Whether the cell at [p] is occupied by an agent whose neighbour relation
    reaches the threshold. *)
Definition happy_at (m : SchellingModel) (p : Position) : bool :=
  match grid_get (grid m) p with
  | Ok c =>
      truthy c
      && PrimFloat.leb (stay_threshold m)
           (relation_of c (neighbors_holding m TypeA p) (neighbors_holding m TypeB p))
  | _ => false
  end.

(** [kept m0 m]: [m] has the configuration of [m0], a grid of the configured
    shape, and as many agents of each type as [m0]. *)
Definition kept (m0 m : SchellingModel) : Prop :=
  x_size m = x_size m0 /\ y_size m = y_size m0 /\ n_agents m = n_agents m0
  /\ stay_threshold m = stay_threshold m0
  /\ grid_wf m
  /\ forall c, tally c (grid m) = tally c (grid m0).

(** A model with a 3 by 3 grid, used to instantiate the statements below:
<<
      A A A
      B A .
      . . .
>> *)
Definition sample : SchellingModel :=
  mkModel 3 3 4 0.5 0.5
    [[TypeA; TypeA; TypeA]; [TypeB; TypeA; Empty]; [Empty; Empty; Empty]] [] 0.

(** Draws that fill a 4 by 4 grid with two A and four B agents; the third
    placement first lands on an occupied cell and draws again. *)
Definition sample_tape : tape := [0; 0; 1; 1; 0; 0; 2; 2; 3; 3; 1; 2; 2; 1].

Definition sample_4x4 : SchellingModel :=
  mkModel 4 4 4 0.5 0
    [[TypeA; Empty; Empty; Empty]; [Empty; TypeA; TypeB; Empty];
     [Empty; TypeB; TypeB; Empty]; [Empty; Empty; Empty; TypeB]] [] 0.

(** ** Vocabulary of the further properties *)

(** The five conditions of [__check_inputs]. *)
Definition valid_config (m : SchellingModel) : Prop :=
  1 < x_size m /\ 1 < y_size m
  /\ n_agents m < x_size m * y_size m
  /\ 1 < n_agents m
  /\ PrimFloat.leb 0 (share_a m) = true /\ PrimFloat.leb (share_a m) 1 = true
  /\ PrimFloat.leb 0 (stay_threshold m) = true
  /\ PrimFloat.leb (stay_threshold m) 1 = true.

(** A computation that returns or keeps drawing, and raises nothing. *)
Definition raises_nothing {A : Type} (r : result A) : Prop :=
  forall e, r <> Raise e.

(** The models a program can hold: the ones a constructor returned, and the
    ones a completed call of [run] left. *)
Inductive reachable : SchellingModel -> Prop :=
  | reachable_init (grid_size : Z * Z) (agents : Z) (share threshold : float)
      (t t' : tape) (m : SchellingModel) :
      init grid_size agents share threshold t = Ok (m, t') ->
      reachable m
  | reachable_run (steps : Z) (print_at_end : bool) (print_every : Z)
      (m m' : SchellingModel) (t t' : tape) (out out' : list event) :
      reachable m ->
      run steps print_at_end print_every (m, t, out) = Ok (m', t', out') ->
      reachable m'.

(** ** Rendering *)

From Stdlib Require Strings.String Strings.Ascii.
Import String.StringSyntax.

Section Rendering.

Local Open Scope string_scope.

(** The attributes of the class [Colors] that [print_schelling] reads:
    [Colors.bold], [Colors.fg.green], [Colors.fg.blue], [Colors.reset] and
    [Colors.bg.lightgrey].  The module that defines them is not part of the
    source at hand. *)
Variables bold fg_green fg_blue reset bg_lightgrey : String.string.

Definition blank_A : String.string := " A ".
Definition blank_B : String.string := " B ".
Definition blanks : String.string := "   ".

(** The dictionary [print_values]. *)
Definition print_values (cell_value : Cell) : String.string :=
  match cell_value with
  | TypeA => String.append bold (String.append fg_green (String.append blank_A reset))
  | TypeB => String.append bold (String.append fg_blue (String.append blank_B reset))
  | Empty => String.append blanks reset
  end.

(** The test that picks the cells drawn on the light background. *)
Definition on_light (i j : nat) : bool :=
  ((i mod 2 =? 0)%nat && (j mod 2 =? 0)%nat)
  || ((i mod 2 =? 1)%nat && (j mod 2 =? 1)%nat).

(** [print_grid] after the second comprehension of [print_schelling]. *)
Definition print_grid (g : Grid) : list (list String.string) :=
  imap (fun i row =>
          imap (fun j cell =>
                  if on_light i j then String.append bg_lightgrey cell else cell)
               row)
       (map (map print_values) g).

Definition newline : String.string :=
  String.String (Ascii.ascii_of_nat 10) String.EmptyString.

(** The text [print_schelling] prints. *)
Definition print_schelling (g : Grid) : String.string :=
  String.concat newline (map (String.concat String.EmptyString) (print_grid g)).

End Rendering.

(** * Properties *)

(** ** Neighbour positions *)

Ltac decide_test :=
  match goal with
  | |- context [Z.leb ?a ?b] =>
      first [ replace (Z.leb a b) with true by (symmetry; apply Z.leb_le; lia)
            | replace (Z.leb a b) with false by (symmetry; apply Z.leb_gt; lia)
            | destruct (Z.leb_spec a b) ]
  | |- context [Z.ltb ?a ?b] =>
      first [ replace (Z.ltb a b) with true by (symmetry; apply Z.ltb_lt; lia)
            | replace (Z.ltb a b) with false by (symmetry; apply Z.ltb_ge; lia)
            | destruct (Z.ltb_spec a b) ]
  | |- context [Z.eqb ?a ?b] =>
      first [ replace (Z.eqb a b) with true by (symmetry; apply Z.eqb_eq; lia)
            | replace (Z.eqb a b) with false by (symmetry; apply Z.eqb_neq; lia)
            | destruct (Z.eqb_spec a b) ]
  end.

Lemma neighbor_positions_cases (m : SchellingModel) (x y : Z) :
  1 < x_size m -> 1 < y_size m -> in_bounds m (x, y) ->
  let ns := get_neighbor_positions m (x, y) in
  (3 <= length ns <= 8)%nat
  /\ Forall (fun p => in_bounds m p /\ Z.abs (fst p - x) <= 1 /\ Z.abs (snd p - y) <= 1) ns
  /\ ~ In (x, y) ns
  /\ ((x = 0 \/ x = x_size m - 1) -> (y = 0 \/ y = y_size m - 1) -> length ns = 3%nat)
  /\ (0 < x < x_size m - 1 -> 0 < y < y_size m - 1 -> length ns = 8%nat).
Proof.
  intros Hx Hy [Hbx Hby]; cbn [fst snd] in Hbx, Hby.
  unfold get_neighbor_positions, Position_eqb, in_bounds.
  cbn [flat_map fst snd app].
  repeat decide_test; cbn [andb negb app length];
    (split; [lia|]);
    (split; [repeat (constructor; [cbn [fst snd]; lia|]); try constructor|]);
    (split; [cbn [In]; intros Hin;
             repeat (destruct Hin as [Hin|Hin]; [inversion Hin; lia|]); exact Hin|]);
    split; intros; lia.
Qed.

(** ** Inversion of results *)

Lemma bind_Ok {A B : Type} (k : A -> result B) (r : result A) (b : B) :
  mbind k r = Ok b -> exists a, r = Ok a /\ k a = Ok b.
Proof. destruct r; cbn; intros H; try discriminate; eauto. Qed.

Ltac bind_inv H :=
  let a := fresh "a" in
  let E := fresh "E" in
  apply bind_Ok in H; destruct H as (a & E & H).

Lemma randint_Ok (lo hi x : Z) (t t' : tape) :
  randint lo hi t = Ok (x, t') ->
  lo <= x <= hi /\ exists v, t = v :: t' /\ x = lo + v mod (hi - lo + 1).
Proof.
  unfold randint. destruct (Z.ltb_spec hi lo); [discriminate|].
  destruct t as [|v t0]; [discriminate|]. intros [= <- <-].
  pose proof (Z.mod_pos_bound v (hi - lo + 1)). split; [lia|eauto].
Qed.

Lemma randint_exact (hi x : Z) (t : tape) :
  0 <= x <= hi -> randint 0 hi (x :: t) = Ok (x, t).
Proof.
  intros Hx. unfold randint. destruct (Z.ltb_spec hi 0); [lia|].
  rewrite Z.mod_small by lia. reflexivity.
Qed.

(** ** Lists and grids read and written by index *)

Lemma py_getitem_Ok {A : Type} (l : list A) (i : Z) (a : A) :
  py_getitem l i = Ok a ->
  let k := Z.to_nat (py_norm l i) in
  0 <= py_norm l i /\ l !! k = Some a
  /\ forall v, py_setitem l i v = Ok (<[k := v]> l).
Proof.
  unfold py_getitem, py_setitem. cbv zeta.
  destruct (Z.ltb_spec (py_norm l i) 0) as [|Hk]; [discriminate|].
  destruct (l !! Z.to_nat (py_norm l i)) as [a'|] eqn:E; [|discriminate].
  intros [= ->]. split; [exact Hk|]. split; [reflexivity|]. intros v.
  apply lookup_lt_Some in E.
  destruct (Z.leb_spec (Z.of_nat (length l)) (py_norm l i)); [lia|reflexivity].
Qed.

Lemma py_getitem_nat {A : Type} (l : list A) (i : Z) (a : A) :
  0 <= i -> l !! Z.to_nat i = Some a -> py_getitem l i = Ok a.
Proof.
  intros Hi E. unfold py_getitem, py_norm.
  destruct (Z.ltb_spec i 0); [lia|].
  destruct (Z.ltb_spec i 0); [lia|]. rewrite E. reflexivity.
Qed.

Lemma py_norm_nonneg {A : Type} (l : list A) (i : Z) :
  0 <= i -> py_norm l i = i.
Proof. intros Hi. unfold py_norm. destruct (Z.ltb_spec i 0); [lia|reflexivity]. Qed.

Lemma grid_get_Ok (g : Grid) (p : Position) (c : Cell) :
  grid_get g p = Ok c ->
  exists (kx ky : nat) (row : list Cell),
    g !! kx = Some row /\ row !! ky = Some c
    /\ (0 <= fst p -> kx = Z.to_nat (fst p))
    /\ (0 <= snd p -> ky = Z.to_nat (snd p))
    /\ forall v, grid_set g p v = Ok (<[kx := <[ky := v]> row]> g).
Proof.
  unfold grid_get, grid_set. intros H. bind_inv H.
  apply py_getitem_Ok in E as (_ & Ex & Sx), H as (_ & Ey & Sy).
  exists (Z.to_nat (py_norm g (fst p))), (Z.to_nat (py_norm a (snd p))), a.
  repeat split; try assumption.
  - intros Hp. now rewrite py_norm_nonneg.
  - intros Hp. now rewrite py_norm_nonneg.
  - intros v. unfold py_getitem in *.
    destruct (Z.ltb_spec (py_norm g (fst p)) 0); [|rewrite Ex; cbn;
      rewrite Sy; cbn; apply Sx].
    specialize (Sx a). unfold py_setitem in Sx.
    destruct (Z.ltb_spec (py_norm g (fst p)) 0); [discriminate|lia].
Qed.

Lemma grid_get_cell_at (g : Grid) (x y : Z) (c : Cell) :
  0 <= x -> 0 <= y ->
  cell_at g (Z.to_nat x) (Z.to_nat y) = Some c -> grid_get g (x, y) = Ok c.
Proof.
  intros Hx Hy. unfold cell_at, grid_get. cbn [fst snd].
  destruct (g !! Z.to_nat x) as [row|] eqn:E; [|discriminate]. cbn.
  intros Hc. rewrite (py_getitem_nat g x row Hx E). cbn.
  now apply py_getitem_nat.
Qed.

Lemma grid_get_cell_at_inv (g : Grid) (x y : Z) (c : Cell) :
  0 <= x -> 0 <= y ->
  grid_get g (x, y) = Ok c -> cell_at g (Z.to_nat x) (Z.to_nat y) = Some c.
Proof.
  intros Hx Hy H. apply grid_get_Ok in H as (kx & ky & row & Er & Ec & Kx & Ky & _).
  cbn [fst snd] in *. rewrite <- Kx, <- Ky by assumption.
  unfold cell_at. rewrite Er. exact Ec.
Qed.

Lemma shaped_cell_at (xs ys : Z) (g : Grid) (kx ky : nat) :
  shaped xs ys g -> Z.of_nat kx < xs -> Z.of_nat ky < ys ->
  exists c, cell_at g kx ky = Some c.
Proof.
  intros [Hl Hr] Hx Hy. unfold cell_at.
  destruct (lookup_lt_is_Some_2 g kx) as [row Er]; [lia|]. rewrite Er. cbn.
  rewrite Forall_lookup in Hr. specialize (Hr _ _ Er). cbn in Hr.
  destruct (lookup_lt_is_Some_2 row ky) as [c Ec]; [lia|]. eauto.
Qed.

Lemma shaped_grid_get (m : SchellingModel) (p : Position) :
  grid_wf m -> in_bounds m p -> exists c, grid_get (grid m) p = Ok c.
Proof.
  intros Hw [Hx Hy]. destruct p as [x y]; cbn [fst snd] in *.
  destruct (shaped_cell_at _ _ _ (Z.to_nat x) (Z.to_nat y) Hw) as [c Hc]; [lia..|].
  exists c. apply grid_get_cell_at; [lia..|exact Hc].
Qed.

Lemma shaped_insert (xs ys : Z) (g : Grid) (kx ky : nat) (row : list Cell) (v : Cell) :
  shaped xs ys g -> g !! kx = Some row ->
  shaped xs ys (<[kx := <[ky := v]> row]> g).
Proof.
  intros [Hl Hr] Er. split.
  - now rewrite length_insert.
  - rewrite Forall_lookup in Hr |- *. intros i r Hi.
    destruct (decide (kx = i)) as [->|Hne].
    + rewrite list_lookup_insert_eq in Hi by (eapply lookup_lt_Some; eauto).
      injection Hi as <-. rewrite length_insert. eapply Hr; eauto.
    + rewrite list_lookup_insert_ne in Hi by assumption. eapply Hr; eauto.
Qed.

Lemma cell_at_insert (g : Grid) (kx ky i j : nat) (row : list Cell) (v : Cell) :
  g !! kx = Some row -> (ky < length row)%nat ->
  cell_at (<[kx := <[ky := v]> row]> g) i j =
  if decide (i = kx /\ j = ky) then Some v else cell_at g i j.
Proof.
  intros Er Hk. unfold cell_at.
  destruct (decide (i = kx)) as [->|Hne].
  - rewrite list_lookup_insert_eq by (eapply lookup_lt_Some; eauto). cbn.
    rewrite Er. cbn.
    destruct (decide (j = ky)) as [->|Hne].
    + rewrite list_lookup_insert_eq by assumption.
      rewrite decide_True by auto. reflexivity.
    + rewrite list_lookup_insert_ne by auto.
      rewrite decide_False by tauto. reflexivity.
  - rewrite list_lookup_insert_ne by auto.
    rewrite decide_False by tauto. reflexivity.
Qed.

(** ** Counting cells *)

Lemma tally_row_insert (c v old : Cell) (row : list Cell) (ky : nat) :
  row !! ky = Some old ->
  (tally_row c (<[ky := v]> row) + hit c old = tally_row c row + hit c v)%nat.
Proof.
  unfold tally_row, hit. revert ky.
  induction row as [|d row IH]; intros [|ky] E; try discriminate.
  - cbn in E. injection E as ->. cbn.
    destruct (Cell_eqb c old), (Cell_eqb c v); cbn; first [reflexivity|lia].
  - cbn in E. specialize (IH _ E).
    change (<[S ky:=v]> (d :: row)) with (d :: <[ky:=v]> row).
    cbn [List.filter]. destruct (Cell_eqb c d); cbn [length]; lia.
Qed.

Lemma tally_insert (c v old : Cell) (g : Grid) (kx ky : nat) (row : list Cell) :
  g !! kx = Some row -> row !! ky = Some old ->
  (tally c (<[kx := <[ky := v]> row]> g) + hit c old = tally c g + hit c v)%nat.
Proof.
  intros Er Ec. revert kx Er.
  induction g as [|r g IH]; intros [|kx] Er; try discriminate.
  - cbn in Er. injection Er as ->.
    change (<[0%nat := <[ky := v]> row]> (row :: g)) with (<[ky := v]> row :: g).
    cbn [tally]. pose proof (tally_row_insert c v old row ky Ec). lia.
  - cbn in Er. specialize (IH _ Er).
    change (<[S kx := <[ky := v]> row]> (r :: g))
      with (r :: <[kx := <[ky := v]> row]> g).
    cbn [tally]. lia.
Qed.

Lemma tally_row_replicate (c : Cell) (n : nat) :
  c <> Empty -> tally_row c (replicate n Empty) = 0%nat.
Proof.
  intros Hc. unfold tally_row. induction n as [|n IH]; [reflexivity|].
  cbn. destruct c; [congruence|exact IH..].
Qed.

Lemma tally_blank (c : Cell) (xs ys : nat) :
  c <> Empty -> tally c (replicate xs (replicate ys Empty)) = 0%nat.
Proof.
  intros Hc. induction xs as [|xs IH]; [reflexivity|].
  cbn [replicate tally]. rewrite tally_row_replicate by assumption. exact IH.
Qed.

(** ** The searches return what they look for *)

Lemma truthy_false (c : Cell) : truthy c = false -> c = Empty.
Proof. destruct c; [reflexivity|discriminate..]. Qed.

Lemma find_empty_loop_Ok (rounds : nat) (g : Grid) (t t' : tape) (p : Position) :
  find_empty_loop rounds g t = Ok (p, t') ->
  grid_get g p = Ok Empty /\ 0 <= fst p /\ 0 <= snd p.
Proof.
  revert t. induction rounds as [|n IH]; intros t H; [discriminate|].
  cbn [find_empty_loop] in H.
  bind_inv H. destruct a as [x t1]. bind_inv H.
  bind_inv H. destruct a0 as [y t2]. bind_inv H.
  apply randint_Ok in E as [Hx _], E1 as [Hy _].
  destruct (truthy a0) eqn:Ht.
  - eapply IH; eauto.
  - injection H as <- <-. apply truthy_false in Ht as ->.
    cbn [fst snd]. repeat split; [assumption|lia..].
Qed.

Lemma find_empty_cell_Ok (g : Grid) (t t' : tape) (p : Position) :
  find_empty_cell g t = Ok (p, t') ->
  grid_get g p = Ok Empty /\ 0 <= fst p /\ 0 <= snd p.
Proof. apply find_empty_loop_Ok. Qed.

Lemma find_full_loop_Ok (rounds : nat) (m : SchellingModel) (t t' : tape)
    (p : Position) :
  find_full_loop rounds m t = Ok (p, t') ->
  in_bounds m p /\ exists c, grid_get (grid m) p = Ok c /\ c <> Empty.
Proof.
  revert t. induction rounds as [|n IH]; intros t H; [discriminate|].
  cbn [find_full_loop] in H.
  bind_inv H. destruct a as [x t1]. bind_inv H. destruct a as [y t2].
  bind_inv H.
  apply randint_Ok in E as [Hx _], E0 as [Hy _].
  destruct (truthy a) eqn:Ht.
  - injection H as <- <-. split; [split; cbn [fst snd]; lia|].
    exists a. split; [assumption|]. intros ->. discriminate.
  - eapply IH; eauto.
Qed.

(** ** Initialisation *)

Lemma place_tally (count : nat) (c : Cell) (g g' : Grid) (t t' : tape) (xs ys : Z) :
  c <> Empty -> shaped xs ys g ->
  place count c g t = Ok (g', t') ->
  shaped xs ys g'
  /\ tally c g' = (tally c g + count)%nat
  /\ (forall d, d <> c -> d <> Empty -> tally d g' = tally d g).
Proof.
  intros Hc. revert g t.
  induction count as [|n IH]; intros g t Hs H; cbn [place] in H.
  - injection H as <- <-. split; [exact Hs|]. split; [lia|auto].
  - bind_inv H. destruct a as [p t1]. bind_inv H.
    apply find_empty_cell_Ok in E as (Hg & _).
    apply grid_get_Ok in Hg as (kx & ky & row & Er & Ec & _ & _ & Set_).
    rewrite Set_ in E0. injection E0 as <-.
    apply IH in H as (Hs' & Hn & Ho); [|eapply shaped_insert; eauto].
    split; [exact Hs'|]. split.
    + rewrite Hn. pose proof (tally_insert c c Empty g kx ky row Er Ec) as T.
      unfold hit in T. destruct c; [congruence|cbn in T; lia..].
    + intros d Hd He. rewrite Ho by assumption.
      pose proof (tally_insert d c Empty g kx ky row Er Ec) as T.
      unfold hit in T. destruct d, c; cbn in T; try congruence; lia.
Qed.

Lemma shaped_blank (xs ys : Z) :
  0 <= xs -> 0 <= ys ->
  shaped xs ys (replicate (Z.to_nat xs) (replicate (Z.to_nat ys) Empty)).
Proof.
  intros Hx Hy. split.
  - rewrite length_replicate. lia.
  - apply Forall_replicate. rewrite length_replicate. lia.
Qed.

Lemma check_inputs_Ok (m : SchellingModel) (u : unit) :
  check_inputs m = Ok u ->
  1 < x_size m /\ 1 < y_size m /\ n_agents m < x_size m * y_size m
  /\ 1 < n_agents m
  /\ PrimFloat.leb 0 (stay_threshold m) = true
  /\ PrimFloat.leb (stay_threshold m) 1 = true.
Proof.
  unfold check_inputs, assert. intros H.
  repeat match type of H with
  | mbind _ (if ?b then _ else _) = _ =>
      destruct b eqn:?; [cbn in H|discriminate]
  | (if ?b then _ else _) = _ =>
      destruct b eqn:?; [|discriminate]
  end.
  repeat match goal with
  | E : _ && _ = true |- _ => apply andb_prop in E as []
  end.
  repeat split; first [now apply Z.ltb_lt | assumption].
Qed.

Lemma init_Ok (grid_size : Z * Z) (agents : Z) (share threshold : float)
    (t t' : tape) (m : SchellingModel) :
  init grid_size agents share threshold t = Ok (m, t') ->
  x_size m = fst grid_size /\ y_size m = snd grid_size /\ n_agents m = agents
  /\ stay_threshold m = threshold
  /\ segregation_shares m = [] /\ steps_run m = 0
  /\ 1 < x_size m /\ 1 < y_size m /\ 1 < agents < x_size m * y_size m
  /\ PrimFloat.leb 0 threshold = true /\ PrimFloat.leb threshold 1 = true
  /\ grid_wf m
  /\ tally TypeA (grid m) = Z.to_nat (agents / 2)
  /\ tally TypeB (grid m) = Z.to_nat agents.
Proof.
  unfold init, initialize_grid. intros H. bind_inv H.
  apply check_inputs_Ok in E as (Hx & Hy & Hn & Hn1 & Ht0 & Ht1).
  cbn [x_size y_size n_agents stay_threshold] in *.
  bind_inv H. destruct a0 as [g1 t1]. bind_inv H. destruct a0 as [g2 t2].
  injection H as <- <-.
  unfold grid_wf, with_grid.
  cbn [x_size y_size n_agents stay_threshold segregation_shares steps_run grid].
  eapply place_tally in E as (S1 & A1 & O1);
    [|discriminate|apply shaped_blank; lia].
  eapply place_tally in E0 as (S2 & B2 & O2); [|discriminate|exact S1].
  rewrite (O2 TypeA), A1, B2, (O1 TypeB) by discriminate.
  rewrite !tally_blank by discriminate.
  split_and!; try assumption; try reflexivity; lia.
Qed.

(** ** Neighbour counts *)

Lemma neighbor_positions_in_bounds (m : SchellingModel) (position : Position) :
  Forall (in_bounds m) (get_neighbor_positions m position).
Proof.
  unfold get_neighbor_positions. cbn [flat_map].
  repeat (apply Forall_app; split); try apply Forall_nil_2;
    match goal with
    | |- Forall _ (if ?b then _ else _) =>
        destruct b eqn:E; [|apply Forall_nil_2]
    end;
    apply Forall_singleton;
    repeat (apply andb_prop in E as [E ?]);
    split; cbn [fst snd]; lia.
Qed.

Lemma neighbor_positions_length (m : SchellingModel) (position : Position) :
  (length (get_neighbor_positions m position) <= 8)%nat.
Proof.
  unfold get_neighbor_positions, Position_eqb. cbn [flat_map fst snd].
  replace (fst position + 0 =? fst position) with true by (symmetry; apply Z.eqb_eq; lia).
  replace (snd position + 0 =? snd position) with true by (symmetry; apply Z.eqb_eq; lia).
  rewrite !andb_true_r. cbn [negb]. rewrite !andb_false_r.
  rewrite !length_app.
  repeat match goal with
  | |- context [if ?b then _ else _] => destruct b
  end; cbn [length]; lia.
Qed.

Lemma count_loop_Ok (g : Grid) (ns : list Position) (a b : Z) :
  Forall (fun p => exists c, grid_get g p = Ok c) ns ->
  count_loop g ns a b =
  Ok (a + Z.of_nat (length (List.filter (holds g TypeA) ns)),
      b + Z.of_nat (length (List.filter (holds g TypeB) ns))).
Proof.
  intros H. revert a b. induction H as [|p ns [c Hc] _ IH]; intros a b.
  - cbn. do 2 f_equal; lia.
  - assert (HA : holds g TypeA p = Cell_eqb TypeA c) by (unfold holds; now rewrite Hc).
    assert (HB : holds g TypeB p = Cell_eqb TypeB c) by (unfold holds; now rewrite Hc).
    cbn [count_loop List.filter]. rewrite HA, HB, Hc. cbn.
    destruct c; cbn [Cell_eqb length]; rewrite IH; do 2 f_equal; lia.
Qed.

Lemma count_neighbors_Ok (m : SchellingModel) (position : Position) :
  grid_wf m ->
  count_neighbors m position =
  Ok (neighbors_holding m TypeA position, neighbors_holding m TypeB position).
Proof.
  intros Hw. unfold count_neighbors, neighbors_holding.
  rewrite count_loop_Ok; [reflexivity|].
  eapply Forall_impl; [apply neighbor_positions_in_bounds|].
  intros p Hp. now apply shaped_grid_get.
Qed.

Lemma filter_length_le {A : Type} (f : A -> bool) (l : list A) :
  (length (List.filter f l) <= length l)%nat.
Proof. induction l as [|a l IH]; cbn; [lia|]. destruct (f a); cbn; lia. Qed.

Lemma neighbors_holding_range (m : SchellingModel) (c : Cell) (position : Position) :
  0 <= neighbors_holding m c position <= 8.
Proof.
  unfold neighbors_holding.
  pose proof (filter_length_le (holds (grid m) c) (get_neighbor_positions m position)).
  pose proof (neighbor_positions_length m position). lia.
Qed.

Lemma get_neighbor_relation_Ok (m : SchellingModel) (position : Position) (c : Cell) :
  grid_wf m -> grid_get (grid m) position = Ok c ->
  get_neighbor_relation m position =
  Ok (relation_of c (neighbors_holding m TypeA position)
                    (neighbors_holding m TypeB position)).
Proof.
  intros Hw Hc. unfold get_neighbor_relation, relation_of.
  rewrite count_neighbors_Ok by assumption. cbn. rewrite Hc. cbn.
  destruct c; try reflexivity;
    match goal with |- context [if ?b then _ else _] => destruct b end;
    reflexivity.
Qed.

(** ** Comparisons of floats *)

Lemma SFcompare_antisym (x y : spec_float) (c : comparison) :
  SFcompare x y = Some c -> SFcompare y x = Some (CompOpp c).
Proof.
  destruct x as [sx|sx| |sx mx ex], y as [sy|sy| |sy my ey]; cbn;
    try discriminate;
    try (destruct sx; intros [= <-]; reflexivity);
    try (destruct sy; intros [= <-]; reflexivity);
    try (destruct sx, sy; intros [= <-]; reflexivity).
  assert (Hp : Pos.compare_cont Eq my mx = CompOpp (Pos.compare_cont Eq mx my))
    by (rewrite Pos.compare_cont_antisym; reflexivity).
  rewrite (Z.compare_antisym ex ey), Hp.
  destruct sx, sy; intros [= <-]; try reflexivity; cbn [CompOpp];
    destruct (ex ?= ey); cbn [CompOpp]; try reflexivity;
    destruct (Pos.compare_cont Eq mx my); reflexivity.
Qed.

(** [r >= t] excludes [r < t]. *)
Lemma float_ge_not_lt (r t : float) :
  PrimFloat.leb t r = true -> PrimFloat.ltb r t = false.
Proof.
  rewrite leb_spec, ltb_spec. unfold SFleb, SFltb.
  destruct (SFcompare (Prim2SF t) (Prim2SF r)) as [c|] eqn:E; [|discriminate].
  apply SFcompare_antisym in E. rewrite E.
  destruct c; cbn; congruence.
Qed.

(** ** The step *)

Lemma shaped_in_bounds (m : SchellingModel) (p : Position) (c : Cell) :
  grid_wf m -> 0 <= fst p -> 0 <= snd p -> grid_get (grid m) p = Ok c ->
  in_bounds m p.
Proof.
  intros [Hl Hr] Hx Hy H. destruct p as [x y]; cbn [fst snd] in *.
  apply grid_get_Ok in H as (kx & ky & row & Er & Ec & Kx & Ky & _).
  cbn [fst snd] in *. specialize (Kx Hx). specialize (Ky Hy). subst kx ky.
  rewrite Forall_lookup in Hr. specialize (Hr _ _ Er). cbn in Hr.
  apply lookup_lt_Some in Er, Ec. split; cbn [fst snd]; lia.
Qed.

(** Moving the agent at [pos] to the empty cell [new_pos]: the two
    assignments of the step succeed and swap the two cells. *)
Lemma move_agent (g : Grid) (pos new_pos : Position) (v : Cell) (xs ys : Z) :
  shaped xs ys g ->
  0 <= fst pos -> 0 <= snd pos -> 0 <= fst new_pos -> 0 <= snd new_pos ->
  grid_get g pos = Ok v -> v <> Empty ->
  grid_get g new_pos = Ok Empty ->
  exists g1 g2 : Grid,
    grid_set g new_pos v = Ok g1
    /\ grid_set g1 pos Empty = Ok g2
    /\ shaped xs ys g2
    /\ (forall i j : nat,
          cell_at g2 i j =
          if decide (i = Z.to_nat (fst pos) /\ j = Z.to_nat (snd pos)) then Some Empty
          else if decide (i = Z.to_nat (fst new_pos) /\ j = Z.to_nat (snd new_pos))
               then Some v else cell_at g i j)
    /\ (forall c, tally c g2 = tally c g).
Proof.
  intros Hs Hpx Hpy Hnx Hny Hv Hne He.
  pose proof Hv as Cv. pose proof He as Ce.
  destruct pos as [px py], new_pos as [qx qy]; cbn [fst snd] in *.
  apply grid_get_cell_at_inv in Cv, Ce; try assumption.
  apply grid_get_Ok in He as (nx & ny & rown & Ern & Ecn & Nx & Ny & Setn).
  cbn [fst snd] in *. specialize (Nx Hnx). specialize (Ny Hny). subst nx ny.
  assert (C1 : forall i j, cell_at (<[Z.to_nat qx := <[Z.to_nat qy := v]> rown]> g) i j
            = if decide (i = Z.to_nat qx /\ j = Z.to_nat qy) then Some v
              else cell_at g i j).
  { intros i j. apply cell_at_insert; [assumption|]. eapply lookup_lt_Some; eauto. }
  assert (Hdiff : ~ (Z.to_nat px = Z.to_nat qx /\ Z.to_nat py = Z.to_nat qy)).
  { intros [Ex Ey]. rewrite Ex, Ey, Ce in Cv. congruence. }
  assert (Cv1 : grid_get (<[Z.to_nat qx := <[Z.to_nat qy := v]> rown]> g) (px, py) = Ok v).
  { apply grid_get_cell_at; try assumption.
    rewrite C1, decide_False by assumption. exact Cv. }
  apply grid_get_Ok in Cv1 as (kx & ky & rowk & Erk & Eck & Kx & Ky & Setk).
  cbn [fst snd] in *. specialize (Kx Hpx). specialize (Ky Hpy). subst kx ky.
  eexists _, _. split; [apply Setn|]. split; [apply Setk|].
  split; [|split].
  - eapply shaped_insert; [|exact Erk]. eapply shaped_insert; eauto.
  - intros i j. rewrite cell_at_insert; [|assumption|eapply lookup_lt_Some; eauto].
    destruct (decide (i = Z.to_nat px /\ j = Z.to_nat py)); [reflexivity|].
    apply C1.
  - intros c.
    pose proof (tally_insert c v Empty g _ _ rown Ern Ecn) as T1.
    pose proof (tally_insert c Empty v _ _ _ rowk Erk Eck) as T2.
    lia.
Qed.

Lemma run_one_step_Ok (m m' : SchellingModel) (t t' : tape) :
  grid_wf m -> run_one_step m t = Ok (m', t') ->
  exists (pos : Position) (v : Cell) (r : float) (t1 : tape),
    find_full_cell m t = Ok (pos, t1)
    /\ in_bounds m pos /\ grid_get (grid m) pos = Ok v /\ v <> Empty
    /\ get_neighbor_relation m pos = Ok r
    /\ ((PrimFloat.ltb r (stay_threshold m) = false /\ m' = m /\ t' = t1)
        \/ (PrimFloat.ltb r (stay_threshold m) = true
            /\ exists (new_pos : Position) (g' : Grid),
                 find_empty_cell (grid m) t1 = Ok (new_pos, t')
                 /\ in_bounds m new_pos
                 /\ grid_get (grid m) new_pos = Ok Empty
                 /\ m' = with_grid m g'
                 /\ shaped (x_size m) (y_size m) g'
                 /\ (forall i j : nat,
                       cell_at g' i j =
                       if decide (i = Z.to_nat (fst pos) /\ j = Z.to_nat (snd pos))
                       then Some Empty
                       else if decide (i = Z.to_nat (fst new_pos)
                                       /\ j = Z.to_nat (snd new_pos))
                            then Some v else cell_at (grid m) i j)
                 /\ (forall c, tally c g' = tally c (grid m)))).
Proof.
  intros Hw H. unfold run_one_step in H.
  bind_inv H. destruct a as [pos t1]. bind_inv H.
  pose proof E as F. apply find_full_loop_Ok in F as (Hb & v & Hv & Hne).
  exists pos, v, a, t1. split_and!; try assumption.
  destruct (PrimFloat.ltb a (stay_threshold m)) eqn:Hlt.
  - right. split; [reflexivity|].
    bind_inv H. destruct a0 as [new_pos t2]. bind_inv H. bind_inv H. bind_inv H.
    injection H as <- <-.
    rewrite Hv in E2. injection E2 as <-.
    pose proof E1 as F. apply find_empty_cell_Ok in F as (He & Hnx & Hny).
    destruct Hb as [Hbx Hby].
    destruct (move_agent (grid m) pos new_pos v _ _ Hw)
      as (g1 & g2 & S1 & S2 & W2 & C2 & T2); try assumption; try lia.
    rewrite S1 in E3. injection E3 as <-. rewrite S2 in E4. injection E4 as <-.
    exists new_pos, g2. split_and!; try assumption; try reflexivity.
    eapply shaped_in_bounds; eauto.
  - left. injection H as <- <-. auto.
Qed.

(** A draw that lands on a cell of the wanted kind ends the search at once. *)
Lemma find_full_cell_hit (m : SchellingModel) (x y : Z) (c : Cell) (t : tape) :
  in_bounds m (x, y) -> grid_get (grid m) (x, y) = Ok c -> c <> Empty ->
  find_full_cell m (x :: y :: t) = Ok ((x, y), t).
Proof.
  intros [Hx Hy] Hc Hne. cbn [fst snd] in *.
  unfold find_full_cell. cbn [length find_full_loop].
  rewrite randint_exact by lia. cbn. rewrite randint_exact by lia. cbn.
  rewrite Hc. cbn. destruct c; [congruence|reflexivity..].
Qed.

Lemma find_empty_cell_hit (m : SchellingModel) (x y : Z) (t : tape) :
  grid_wf m -> in_bounds m (x, y) -> grid_get (grid m) (x, y) = Ok Empty ->
  find_empty_cell (grid m) (x :: y :: t) = Ok ((x, y), t).
Proof.
  intros Hw [Hx Hy] Hc. cbn [fst snd] in *.
  destruct (shaped_cell_at _ _ _ 0%nat 0%nat Hw) as [c0 H0]; [lia..|].
  unfold cell_at in H0. destruct (grid m !! 0%nat) as [row0|] eqn:E0; [|discriminate].
  destruct Hw as [Hl Hr]. rewrite Forall_lookup in Hr. specialize (Hr _ _ E0).
  cbn in Hr.
  unfold find_empty_cell. cbn [length find_empty_loop].
  rewrite (py_getitem_nat (grid m) 0 row0) by (try lia; exact E0).
  rewrite randint_exact by lia. cbn [mbind result_bind].
  rewrite randint_exact by lia. cbn [mbind result_bind]. rewrite Hc. reflexivity.
Qed.

Lemma run_one_step_progress (m : SchellingModel) (p q : Position) (c : Cell) :
  grid_wf m ->
  in_bounds m p -> grid_get (grid m) p = Ok c -> c <> Empty ->
  in_bounds m q -> grid_get (grid m) q = Ok Empty ->
  exists m', run_one_step m [fst p; snd p; fst q; snd q] = Ok (m', [])
          \/ run_one_step m [fst p; snd p; fst q; snd q] = Ok (m', [fst q; snd q]).
Proof.
  intros Hw Hp Hc Hne Hq He. destruct p as [px py], q as [qx qy]. cbn [fst snd].
  unfold run_one_step.
  rewrite (find_full_cell_hit m px py c) by assumption. cbn [mbind result_bind].
  rewrite (get_neighbor_relation_Ok m (px, py) c) by assumption.
  cbn [mbind result_bind].
  destruct (PrimFloat.ltb _ _).
  - rewrite find_empty_cell_hit by assumption. cbn [mbind result_bind].
    rewrite Hc. cbn [mbind result_bind].
    destruct Hp as [Hpx Hpy], Hq as [Hqx Hqy]. cbn [fst snd] in *.
    destruct (move_agent (grid m) (px, py) (qx, qy) c _ _ Hw)
      as (g1 & g2 & S1 & S2 & _); cbn [fst snd]; try assumption; try lia.
    rewrite S1. cbn [mbind result_bind]. rewrite S2. cbn [mbind result_bind]. eauto.
  - eauto.
Qed.

(** ** The run loop *)

Lemma run_body_Ok (print_every : Z) (m m' : SchellingModel) (t t' : tape)
    (out out' : list event) :
  run_body print_every (m, t, out) = Ok (m', t', out') ->
  print_every <> 0
  /\ exists m1 s,
       run_one_step m t = Ok (m1, t')
       /\ get_segregation (count_step m1) = Ok s
       /\ m' = record_share (count_step m1) s
       /\ out' = (if steps_run m' mod print_every =? 0 then show m' out else out).
Proof.
  unfold run_body. intros H. bind_inv H. destruct a as [m1 t1].
  bind_inv H. bind_inv H. injection H as <- <- <-.
  unfold py_mod in E1. destruct (Z.eqb_spec print_every 0); [discriminate|].
  injection E1 as <-. split; [assumption|]. exists m1, a. auto.
Qed.

Lemma run_loop_stepped (k : nat) (print_every : Z) (m m' : SchellingModel)
    (t t' : tape) (out out' : list event) :
  run_loop k print_every (m, t, out) = Ok (m', t', out') ->
  exists shares, stepped k (m, t) (m', t') shares.
Proof.
  revert m t out. induction k as [|k IH]; intros m t out H; cbn [run_loop] in H.
  - injection H as <- <- <-. exists []. constructor.
  - bind_inv H. destruct a as [[m2 t2] out2].
    apply run_body_Ok in E as (_ & m1 & s & E1 & E2 & -> & _).
    apply IH in H as [shares H]. exists (s :: shares). econstructor; eauto.
Qed.

Lemma with_grid_self (m : SchellingModel) : with_grid m (grid m) = m.
Proof. destruct m; reflexivity. Qed.

(** The step touches no attribute but the grid. *)
Lemma run_one_step_fields (m m' : SchellingModel) (t t' : tape) :
  run_one_step m t = Ok (m', t') -> m' = with_grid m (grid m').
Proof.
  unfold run_one_step. intros H. bind_inv H. destruct a as [pos t1]. bind_inv H.
  destruct (PrimFloat.ltb a (stay_threshold m)).
  - bind_inv H. destruct a0 as [new_pos t2]. bind_inv H. bind_inv H. bind_inv H.
    injection H as <- <-. reflexivity.
  - injection H as <- <-. symmetry. apply with_grid_self.
Qed.

Lemma stepped_counters (k : nat) (w w' : SchellingModel * tape) (shares : list float) :
  stepped k w w' shares ->
  length shares = k
  /\ steps_run (fst w') = steps_run (fst w) + Z.of_nat k
  /\ segregation_shares (fst w') = segregation_shares (fst w) ++ shares.
Proof.
  induction 1 as [w|k m m1 t t1 s w' shares E1 E2 _ (IHl & IHs & IHa)].
  - cbn. rewrite app_nil_r. split_and!; [reflexivity|lia|reflexivity].
  - cbn [fst] in *. split_and!.
    + cbn. now rewrite IHl.
    + rewrite IHs. cbn [record_share count_step steps_run].
      apply run_one_step_fields in E1. rewrite E1. cbn. lia.
    + rewrite IHa. cbn [record_share count_step segregation_shares].
      apply run_one_step_fields in E1. rewrite E1. cbn.
      rewrite <- app_assoc. reflexivity.
Qed.

Lemma stepped_split (j k : nat) (w w'' : SchellingModel * tape) (shares : list float) :
  stepped (j + k) w w'' shares ->
  exists w' s1 s2,
    stepped j w w' s1 /\ stepped k w' w'' s2 /\ shares = s1 ++ s2.
Proof.
  revert w shares. induction j as [|j IH]; intros w shares H.
  - exists w, [], shares. split_and!; [constructor|exact H|reflexivity].
  - cbn [Nat.add] in H. inversion H as [|? m m1 t t1 s ? sh E1 E2 H']; subst.
    apply IH in H' as (w' & s1 & s2 & H1 & H2 & ->).
    exists w', (s :: s1), s2. split_and!; [econstructor; eauto|exact H2|reflexivity].
Qed.

(** ** The metric *)

Lemma sumZ_map {A B : Type} (f : A -> B) (w : B -> Z) (l : list A) :
  sumZ w (map f l) = sumZ (fun a => w (f a)) l.
Proof. induction l as [|a l IH]; cbn; [reflexivity|]. now rewrite <- IH. Qed.

Lemma sumZ_ext {A : Type} (w v : A -> Z) (l : list A) :
  (forall a, In a l -> w a = v a) -> sumZ w l = sumZ v l.
Proof.
  induction l as [|a l IH]; intros H; cbn; [reflexivity|].
  rewrite (H a) by (left; reflexivity). rewrite IH; [reflexivity|].
  intros b Hb. apply H. now right.
Qed.

(** A sum over the indices of a list is a sum over its elements. *)
Lemma sumZ_seq_lookup {A : Type} (l : list A) (w : nat -> Z) (v : A -> Z) :
  (forall k a, l !! k = Some a -> w k = v a) ->
  sumZ w (seq 0 (length l)) = sumZ v l.
Proof.
  revert w. induction l as [|a l IH]; intros w H; [reflexivity|].
  cbn [length seq]. rewrite <- seq_shift. cbn [sumZ].
  rewrite (H 0%nat a) by reflexivity. f_equal. rewrite sumZ_map.
  apply IH. intros k b Hk. apply (H (S k)). exact Hk.
Qed.

Lemma for_each_sum {A : Type} (l : list A) (w : A -> Z)
    (body : Z -> A -> result Z) :
  (forall a s, In a l -> body s a = Ok (s + w a)) ->
  forall s, for_each l s body = Ok (s + sumZ w l).
Proof.
  induction l as [|a l IH]; intros H s; cbn [for_each sumZ].
  - f_equal. lia.
  - rewrite H by (left; reflexivity). cbn [mbind result_bind].
    rewrite IH by (intros b s' Hb; apply H; now right).
    f_equal. lia.
Qed.

Lemma In_range (n i : Z) : In i (range n) -> 0 <= i < n.
Proof.
  unfold range. rewrite in_map_iff. intros (k & <- & Hk).
  apply in_seq in Hk. lia.
Qed.

Lemma count_staying_Ok (m : SchellingModel) :
  grid_wf m ->
  count_staying m =
  Ok (sumZ (fun i => sumZ (fun j => Z_of_bool (happy_at m (i, j))) (range (y_size m)))
           (range (x_size m))).
Proof.
  intros Hw. unfold count_staying. pose proof Hw as [Hl Hr].
  rewrite Hl. rewrite for_each_sum with
    (w := fun i => sumZ (fun j => Z_of_bool (happy_at m (i, j))) (range (y_size m)));
    [f_equal|].
  intros i s Hi. apply In_range in Hi.
  destruct (lookup_lt_is_Some_2 (grid m) 0%nat) as [row0 E0]; [lia|].
  rewrite Forall_lookup in Hr. specialize (Hr _ _ E0). cbn in Hr.
  rewrite (py_getitem_nat (grid m) 0 row0) by (try lia; exact E0).
  cbn [mbind result_bind]. rewrite Hr.
  apply for_each_sum. intros j s' Hj. apply In_range in Hj.
  destruct (shaped_grid_get m (i, j) Hw) as [c Hc]; [split; cbn [fst snd]; lia|].
  unfold happy_at. rewrite Hc. cbn [mbind result_bind].
  destruct (truthy c); cbn [andb]; [|f_equal; cbn; lia].
  rewrite (get_neighbor_relation_Ok m (i, j) c) by assumption.
  cbn [mbind result_bind].
  destruct (PrimFloat.leb _ _); cbn [Z_of_bool]; f_equal; lia.
Qed.

(** Every value the neighbour relation can take on a grid is at least zero:
    the counts range over [0..8]. *)
Lemma small_count (a : Z) :
  0 <= a <= 8 ->
  a = 0 \/ a = 1 \/ a = 2 \/ a = 3 \/ a = 4 \/ a = 5 \/ a = 6 \/ a = 7 \/ a = 8.
Proof. lia. Qed.

Lemma relation_nonneg (c : Cell) (a b : Z) :
  0 <= a <= 8 -> 0 <= b <= 8 -> PrimFloat.leb 0 (relation_of c a b) = true.
Proof.
  intros Ha Hb. apply small_count in Ha, Hb.
  repeat (destruct Ha as [->|Ha]); try subst a;
    repeat (destruct Hb as [->|Hb]); try subst b;
    destruct c; vm_compute; reflexivity.
Qed.

Lemma sumZ_truthy_row (row : list Cell) :
  sumZ (fun c => Z_of_bool (truthy c)) row
  = Z.of_nat (tally_row TypeA row + tally_row TypeB row).
Proof.
  unfold tally_row. induction row as [|c row IH]; [reflexivity|].
  cbn [sumZ List.filter]. rewrite IH. destruct c; cbn; lia.
Qed.

Lemma sumZ_occupied (g : Grid) :
  sumZ (fun row => Z.of_nat (tally_row TypeA row + tally_row TypeB row)) g
  = Z.of_nat (occupied g).
Proof.
  unfold occupied. induction g as [|row g IH]; [reflexivity|].
  cbn [sumZ tally]. rewrite IH. lia.
Qed.

(** With the threshold at zero every agent counts as staying. *)
Lemma count_staying_zero (m : SchellingModel) :
  grid_wf m -> stay_threshold m = 0%float ->
  count_staying m = Ok (Z.of_nat (occupied (grid m))).
Proof.
  intros Hw Ht. rewrite count_staying_Ok by assumption. f_equal.
  destruct Hw as [Hl Hr]. rewrite <- sumZ_occupied.
  unfold range at 2. rewrite sumZ_map, <- Hl, Nat2Z.id.
  apply sumZ_seq_lookup. intros k row Ek.
  rewrite Forall_lookup in Hr. pose proof (Hr _ _ Ek) as Hy. cbn in Hy.
  rewrite <- sumZ_truthy_row.
  unfold range. rewrite sumZ_map, <- Hy, Nat2Z.id.
  apply sumZ_seq_lookup. intros j c Ej.
  unfold happy_at.
  rewrite (grid_get_cell_at (grid m) (Z.of_nat k) (Z.of_nat j) c); try lia.
  - rewrite Ht, relation_nonneg by apply neighbors_holding_range.
    now rewrite andb_true_r.
  - unfold cell_at. rewrite !Nat2Z.id, Ek. exact Ej.
Qed.

Lemma get_segregation_zero (m : SchellingModel) :
  grid_wf m -> stay_threshold m = 0%float -> n_agents m <> 0 ->
  get_segregation m = Ok (truediv (Z.of_nat (occupied (grid m))) (n_agents m)).
Proof.
  intros Hw Ht Hn. unfold get_segregation.
  rewrite count_staying_zero by assumption. cbn [mbind result_bind].
  destruct (Z.eqb_spec (n_agents m) 0); [contradiction|reflexivity].
Qed.

(** ** What a run keeps *)

Lemma kept_refl (m : SchellingModel) : grid_wf m -> kept m m.
Proof. intros Hw. unfold kept. split_and!; auto. Qed.

Lemma run_one_step_kept (m0 m m' : SchellingModel) (t t' : tape) :
  kept m0 m -> run_one_step m t = Ok (m', t') -> kept m0 m'.
Proof.
  intros (Hx & Hy & Hn & Ht & Hw & Hc) H.
  apply run_one_step_Ok in H as (pos & v & r & t1 & _ & _ & _ & _ & _ & H);
    [|assumption].
  destruct H as [(_ & -> & _)|(_ & new_pos & g' & _ & _ & _ & -> & Hs & _ & Hg)].
  - unfold kept. split_and!; assumption.
  - unfold kept, grid_wf. cbn [with_grid x_size y_size n_agents stay_threshold grid].
    split_and!; try assumption. intros c. now rewrite Hg.
Qed.

Lemma kept_bookkeeping (m0 m : SchellingModel) (s : float) :
  kept m0 m -> kept m0 (record_share (count_step m) s).
Proof. intros H. exact H. Qed.

Lemma stepped_kept (k : nat) (m0 : SchellingModel) (w w' : SchellingModel * tape)
    (shares : list float) :
  stepped k w w' shares -> kept m0 (fst w) ->
  kept m0 (fst w')
  /\ Forall (fun s => exists m, kept m0 m /\ get_segregation m = Ok s) shares.
Proof.
  induction 1 as [w|k m m1 t t1 s w' shares E1 E2 _ IH]; intros K.
  - split; [exact K|constructor].
  - cbn [fst] in *. pose proof (run_one_step_kept _ _ _ _ _ K E1) as K1.
    destruct IH as [K' F]; [apply kept_bookkeeping, K1|].
    split; [exact K'|]. constructor; [|exact F].
    exists (count_step m1). split; [exact K1|exact E2].
Qed.

(** ** Cells of every kind add up to the grid *)

Lemma tally_row_total (row : list Cell) :
  (tally_row Empty row + tally_row TypeA row + tally_row TypeB row)%nat = length row.
Proof.
  unfold tally_row. induction row as [|c row IH]; [reflexivity|].
  cbn [List.filter length]. destruct c; cbn; lia.
Qed.

Lemma tally_total (xs ys : Z) (g : Grid) :
  shaped xs ys g ->
  Z.of_nat (tally Empty g + tally TypeA g + tally TypeB g) = xs * ys.
Proof.
  intros [Hl Hr]. subst xs. induction Hr as [|row g Hrow _ IH]; [reflexivity|].
  cbn [tally length]. pose proof (tally_row_total row). nia.
Qed.

Lemma tally_row_lookup (row : list Cell) (j : nat) (c : Cell) :
  row !! j = Some c -> (1 <= tally_row c row)%nat.
Proof.
  unfold tally_row. revert j. induction row as [|d row IH]; intros [|j] E;
    try discriminate; cbn in E; cbn [List.filter].
  - injection E as ->. destruct c; cbn; lia.
  - specialize (IH _ E). destruct (Cell_eqb c d); cbn [length]; lia.
Qed.

Lemma tally_cell_at (g : Grid) (i j : nat) (c : Cell) :
  cell_at g i j = Some c -> (1 <= tally c g)%nat.
Proof.
  unfold cell_at. revert i. induction g as [|row g IH]; intros [|i]; cbn;
    try discriminate.
  - intros E. apply tally_row_lookup in E. lia.
  - intros E. apply IH in E. lia.
Qed.

(** A grid without an empty cell keeps [__find_empty_cell] drawing. *)
Lemma full_grid_no_empty_cell (g : Grid) (t t' : tape) (p : Position) :
  tally Empty g = 0%nat -> find_empty_cell g t <> Ok (p, t').
Proof.
  intros H0 H. apply find_empty_cell_Ok in H as (H & Hx & Hy).
  destruct p as [x y]. apply grid_get_cell_at_inv in H; [|assumption..].
  apply tally_cell_at in H. lia.
Qed.

(** ** Helpers of the statements *)

Lemma grid_get_follows_cell_at (g g' : Grid) (q : Position) (c : Cell) :
  0 <= fst q -> 0 <= snd q ->
  grid_get g q = Ok c ->
  cell_at g' (Z.to_nat (fst q)) (Z.to_nat (snd q))
    = cell_at g (Z.to_nat (fst q)) (Z.to_nat (snd q)) ->
  grid_get g' q = Ok c.
Proof.
  destruct q as [x y]; cbn [fst snd]. intros Hx Hy Hc E.
  apply grid_get_cell_at; [assumption..|]. rewrite E.
  now apply grid_get_cell_at_inv.
Qed.

(** With the threshold at zero every share a run records, and the share
    measured afterwards, is the number of occupied cells over [n_agents]. *)
Lemma zero_threshold_shares (k : nat) (m0 m' : SchellingModel) (t t' : tape)
    (shares : list float) :
  grid_wf m0 -> stay_threshold m0 = 0%float -> n_agents m0 <> 0 ->
  stepped k (m0, t) (m', t') shares ->
  Forall (fun s => s = truediv (Z.of_nat (occupied (grid m0))) (n_agents m0)) shares
  /\ get_segregation m' = Ok (truediv (Z.of_nat (occupied (grid m0))) (n_agents m0)).
Proof.
  intros Hw Ht Hn St.
  assert (G : forall m, kept m0 m ->
            get_segregation m = Ok (truediv (Z.of_nat (occupied (grid m0))) (n_agents m0))).
  { intros m (_ & _ & Kn & Kt & Kw & Kc).
    rewrite get_segregation_zero; [|assumption|congruence|congruence].
    unfold occupied. now rewrite !Kc, Kn. }
  apply (stepped_kept _ m0) in St as [K F]; [|apply kept_refl, Hw].
  split; [|apply G, K].
  eapply Forall_impl; [exact F|]. intros s (m & Km & Hm).
  rewrite (G m Km) in Hm. congruence.
Qed.

Lemma init_sample_4x4 (t : tape) :
  init (4, 4) 4 0.5 0 (sample_tape ++ t) = Ok (sample_4x4, t).
Proof. reflexivity. Qed.

(** * The claims *)

(** C8.  On a grid of at least 2 by 2, the neighbours of an in-bounds position
    are between 3 and 8 positions, all of them inside the grid and at distance
    at most one in each coordinate (nothing wraps around), and the position
    itself is not among them; a corner has exactly 3 and an interior position
    exactly 8. *)
Theorem neighbor_positions_between_3_and_8 (m : SchellingModel) (x y : Z) :
  1 < x_size m -> 1 < y_size m -> in_bounds m (x, y) ->
  (3 <= length (get_neighbor_positions m (x, y)) <= 8)%nat
  /\ Forall (fun p => in_bounds m p /\ Z.abs (fst p - x) <= 1 /\ Z.abs (snd p - y) <= 1)
       (get_neighbor_positions m (x, y))
  /\ ~ In (x, y) (get_neighbor_positions m (x, y))
  /\ ((x = 0 \/ x = x_size m - 1) -> (y = 0 \/ y = y_size m - 1) ->
      length (get_neighbor_positions m (x, y)) = 3%nat)
  /\ (0 < x < x_size m - 1 -> 0 < y < y_size m - 1 ->
      length (get_neighbor_positions m (x, y)) = 8%nat).
Proof. intros Hx Hy Hb. exact (neighbor_positions_cases m x y Hx Hy Hb). Qed.

Lemma neighbor_positions_between_3_and_8_witness :
  (3 <= length (get_neighbor_positions sample (0, 2)%Z) <= 8)%nat
  /\ ~ In (0, 2) (get_neighbor_positions sample (0, 2)).
Proof.
  destruct (neighbor_positions_between_3_and_8 sample 0 2) as (L & _ & N & _).
  - reflexivity.
  - reflexivity.
  - split; cbn; lia.
  - split; [exact L|exact N].
Defined.

(** C7.  At an in-bounds position of a well-shaped grid the neighbour relation
    is [1.0] on an empty cell; on a cell of type A it is [1.0] when no
    neighbour holds B, whatever the number of A neighbours, and otherwise the
    quotient of the A count by the B count; symmetrically on a cell of type B.
    The counts are those of the neighbours holding each type.  The value is a
    ratio of like to unlike neighbours and can exceed one: three like and one
    unlike neighbour give [3.0]. *)
Theorem neighbor_relation_is_like_to_unlike_ratio (m : SchellingModel)
    (pos : Position) :
  grid_wf m -> in_bounds m pos ->
  count_neighbors m pos
    = Ok (neighbors_holding m TypeA pos, neighbors_holding m TypeB pos)
  /\ (exists c, grid_get (grid m) pos = Ok c)
  /\ (grid_get (grid m) pos = Ok Empty ->
      get_neighbor_relation m pos = Ok 1%float)
  /\ (grid_get (grid m) pos = Ok TypeA ->
      get_neighbor_relation m pos =
      Ok (if neighbors_holding m TypeB pos =? 0 then 1%float
          else truediv (neighbors_holding m TypeA pos) (neighbors_holding m TypeB pos)))
  /\ (grid_get (grid m) pos = Ok TypeB ->
      get_neighbor_relation m pos =
      Ok (if neighbors_holding m TypeA pos =? 0 then 1%float
          else truediv (neighbors_holding m TypeB pos) (neighbors_holding m TypeA pos)))
  /\ (neighbors_holding sample TypeA (1, 1) = 3
      /\ neighbors_holding sample TypeB (1, 1) = 1
      /\ get_neighbor_relation sample (1, 1) = Ok 3%float
      /\ PrimFloat.ltb 1 3 = true).
Proof.
  intros Hw Hb. split_and!.
  - now apply count_neighbors_Ok.
  - now apply shaped_grid_get.
  - intros H. now rewrite (get_neighbor_relation_Ok m pos Empty).
  - intros H. now rewrite (get_neighbor_relation_Ok m pos TypeA).
  - intros H. now rewrite (get_neighbor_relation_Ok m pos TypeB).
  - vm_compute. reflexivity.
  - vm_compute. reflexivity.
  - vm_compute. reflexivity.
  - reflexivity.
Qed.

Lemma neighbor_relation_is_like_to_unlike_ratio_witness :
  get_neighbor_relation sample (1, 0) = Ok (truediv 0 3).
Proof.
  destruct (neighbor_relation_is_like_to_unlike_ratio sample (1, 0))
    as (_ & _ & _ & _ & HB & _).
  - split; [reflexivity|]. repeat constructor.
  - split; cbn; lia.
  - exact (HB eq_refl).
Defined.

(** C5.  Whenever construction returns, the grid holds the floor of
    [n_agents / 2] cells of type A and [n_agents] cells of type B: the number
    of agents placed is the sum of the two, which is not [n_agents]. *)
Theorem init_places_half_plus_all (grid_size : Z * Z) (agents : Z)
    (share threshold : float) (t t' : tape) (m : SchellingModel) :
  init grid_size agents share threshold t = Ok (m, t') ->
  Z.of_nat (tally TypeA (grid m)) = agents / 2
  /\ Z.of_nat (tally TypeB (grid m)) = agents
  /\ Z.of_nat (occupied (grid m)) = agents / 2 + agents
  /\ Z.of_nat (occupied (grid m)) <> agents.
Proof.
  intros H. apply init_Ok in H
    as (_ & _ & _ & _ & _ & _ & _ & _ & Hn & _ & _ & _ & HA & HB).
  unfold occupied. rewrite HA, HB.
  assert (1 <= agents / 2) by (apply Z.div_le_lower_bound; lia).
  lia.
Qed.

Lemma init_places_half_plus_all_witness :
  Z.of_nat (tally TypeA (grid sample_4x4)) = 2
  /\ Z.of_nat (tally TypeB (grid sample_4x4)) = 4.
Proof.
  destruct (init_places_half_plus_all (4, 4) 4 0.5 0 sample_tape [] sample_4x4)
    as (HA & HB & _).
  - reflexivity.
  - split; [exact HA|exact HB].
Defined.

(** C6.  On a well-shaped grid with an occupied and an empty cell the step can
    return, and whenever it returns it has gone as follows.  The cell [pos]
    it selected is the one [__find_full_cell] returned on the draws at hand,
    an occupied cell, with neighbour relation [r].  If [r] is at least the
    threshold, or more generally not below it, the model is left as it was
    and only the draws of the selection are used up.  If [r] is below the
    threshold, [new_pos] is the cell [__find_empty_cell] returned on the draws
    that follow, a cell that was empty; [pos] has become empty, [new_pos]
    holds the agent of [pos], and every other cell is as before.  In both
    cases only the grid attribute can differ and the number of occupied cells
    is the same. *)
Theorem run_one_step_moves_at_most_one_agent (m : SchellingModel)
    (p q : Position) (c : Cell) :
  grid_wf m ->
  in_bounds m p -> grid_get (grid m) p = Ok c -> c <> Empty ->
  in_bounds m q -> grid_get (grid m) q = Ok Empty ->
  (exists t m' t', run_one_step m t = Ok (m', t'))
  /\ forall t m' t', run_one_step m t = Ok (m', t') ->
     exists (pos : Position) (v : Cell) (r : float) (t1 : tape),
       find_full_cell m t = Ok (pos, t1)
       /\ in_bounds m pos /\ grid_get (grid m) pos = Ok v /\ v <> Empty
       /\ get_neighbor_relation m pos = Ok r
       /\ (PrimFloat.leb (stay_threshold m) r = true -> m' = m /\ t' = t1)
       /\ (PrimFloat.ltb r (stay_threshold m) = false -> m' = m /\ t' = t1)
       /\ (PrimFloat.ltb r (stay_threshold m) = true ->
           exists new_pos : Position,
             find_empty_cell (grid m) t1 = Ok (new_pos, t')
             /\ in_bounds m new_pos
             /\ grid_get (grid m) new_pos = Ok Empty
             /\ new_pos <> pos
             /\ grid_get (grid m') pos = Ok Empty
             /\ grid_get (grid m') new_pos = Ok v
             /\ forall q', in_bounds m q' -> q' <> pos -> q' <> new_pos ->
                  grid_get (grid m') q' = grid_get (grid m) q')
       /\ m' = with_grid m (grid m')
       /\ grid_wf m'
       /\ occupied (grid m') = occupied (grid m).
Proof.
  intros Hw Hp Hc Hne Hq He. split.
  - destruct (run_one_step_progress m p q c) as [m' [H|H]]; eauto.
  - intros t m' t' H. pose proof (run_one_step_fields _ _ _ _ H) as Hf.
    apply run_one_step_Ok in H
      as (pos & v & r & t1 & Hfull & Hb & Hv & Hvn & Hr & H); [|assumption].
    exists pos, v, r, t1. split_and!; try assumption.
    + intros Hge. apply float_ge_not_lt in Hge.
      destruct H as [(_ & -> & ->)|(Hlt & _)]; [auto|congruence].
    + intros Hnlt.
      destruct H as [(_ & -> & ->)|(Hlt & _)]; [auto|congruence].
    + intros Hlt.
      destruct H as [(Hnlt & _)
                    |(_ & new_pos & g' & Hfind & Hnb & Hn & -> & Hs & Hcell & _)];
        [congruence|].
      cbn [with_grid grid]. exists new_pos.
      assert (Hd : new_pos <> pos) by (intros ->; rewrite Hv in Hn; congruence).
      destruct Hb as [Hbx Hby], Hnb as [Hnx Hny].
      destruct pos as [px py], new_pos as [nx ny]; cbn [fst snd] in *.
      split_and!; try assumption; try (split; assumption).
      * apply grid_get_cell_at; [lia..|]. rewrite Hcell.
        now rewrite decide_True.
      * apply grid_get_cell_at; [lia..|]. rewrite Hcell.
        rewrite decide_False, decide_True; [reflexivity|auto|].
        intros [Ex Ey]. apply Z2Nat.inj in Ex, Ey; try lia. subst.
        rewrite Hv in Hn. congruence.
      * intros [qx qy] [Hqx Hqy] N1 N2. cbn [fst snd] in *.
        destruct (shaped_grid_get m (qx, qy) Hw) as [d Hd']; [split; assumption|].
        rewrite Hd'. apply (grid_get_follows_cell_at (grid m)); cbn [fst snd];
          try lia; try assumption.
        rewrite Hcell, !decide_False; [reflexivity| |];
          intros [Ex Ey]; apply Z2Nat.inj in Ex, Ey; try lia; subst; congruence.
    + destruct H as [(_ & -> & _)|(_ & _ & g' & _ & _ & _ & -> & Hs & _)];
        [assumption|exact Hs].
    + destruct H as [(_ & -> & _)|(_ & _ & g' & _ & _ & _ & -> & _ & _ & Ht)];
        [reflexivity|].
      unfold occupied. cbn [with_grid grid]. now rewrite !Ht.
Qed.

Lemma run_one_step_moves_at_most_one_agent_witness :
  match run_one_step sample [1; 0; 2; 2; 7] with
  | Ok (m', t') =>
      t' = [7]
      /\ grid_get (grid m') (1, 0) = Ok Empty
      /\ grid_get (grid m') (2, 2) = Ok TypeB
  | _ => False
  end.
Proof.
  destruct (run_one_step sample [1; 0; 2; 2; 7]) as [[m' t']| |] eqn:E.
  - destruct (run_one_step_moves_at_most_one_agent sample (1, 0) (2, 2) TypeB)
      as [_ H].
    + split; [reflexivity|]. repeat constructor.
    + split; cbn; lia.
    + reflexivity.
    + discriminate.
    + split; cbn; lia.
    + reflexivity.
    + destruct (H _ _ _ E)
        as (pos & v & r & t1 & F & _ & Hv & _ & Hr & _ & _ & Hmove & _).
      vm_compute in F. injection F as <- <-.
      vm_compute in Hv. injection Hv as <-.
      vm_compute in Hr. injection Hr as <-.
      destruct (Hmove eq_refl) as (new_pos & Fe & _ & _ & _ & G1 & G2 & _).
      vm_compute in Fe. injection Fe as <- <-.
      split; [reflexivity|]. split; [exact G1|exact G2].
  - vm_compute in E. discriminate.
  - vm_compute in E. discriminate.
Defined.

(** C9.  A call of [run] that returns has made exactly [steps] rounds, each of
    them one call of the step followed by the increment of [steps_run] and the
    recording of the share measured after that step: [steps_run] has grown by
    [steps], the shares recorded are appended in order, one per round, and
    after every round [k] the counter has grown by [k] and so has the length
    of [segregation_shares], which therefore stays equal to [steps_run] when
    it was so at the start. *)
Theorem run_counts_every_step (steps : Z) (print_at_end : bool) (print_every : Z)
    (m m' : SchellingModel) (t t' : tape) (out out' : list event) :
  0 <= steps ->
  run steps print_at_end print_every (m, t, out) = Ok (m', t', out') ->
  exists shares : list float,
    stepped (Z.to_nat steps) (m, t) (m', t') shares
    /\ Z.of_nat (length shares) = steps
    /\ steps_run m' = steps_run m + steps
    /\ segregation_shares m' = segregation_shares m ++ shares
    /\ forall k : nat, (k <= Z.to_nat steps)%nat ->
       exists (mk : SchellingModel) (tk : tape) (sk : list float),
         stepped k (m, t) (mk, tk) sk
         /\ steps_run mk = steps_run m + Z.of_nat k
         /\ length (segregation_shares mk) = (length (segregation_shares m) + k)%nat
         /\ (Z.of_nat (length (segregation_shares m)) = steps_run m ->
             Z.of_nat (length (segregation_shares mk)) = steps_run mk).
Proof.
  intros Hs H. unfold run in H. bind_inv H. destruct a as [[m1 t1] out1].
  injection H as <- <- <-.
  apply run_loop_stepped in E as [shares St]. exists shares.
  pose proof (stepped_counters _ _ _ _ St) as (Hl & Hr & Ha). cbn [fst] in *.
  split_and!; [exact St|lia|lia|exact Ha|].
  intros k Hk. replace (Z.to_nat steps) with (k + (Z.to_nat steps - k))%nat in St by lia.
  apply stepped_split in St as ([mk tk] & s1 & s2 & S1 & _ & _).
  exists mk, tk, s1.
  pose proof (stepped_counters _ _ _ _ S1) as (Hl1 & Hr1 & Ha1). cbn [fst] in *.
  split_and!; [exact S1|exact Hr1| |].
  - rewrite Ha1, length_app. lia.
  - intros H0. rewrite Ha1, length_app. lia.
Qed.

Lemma run_counts_every_step_witness :
  exists m' t' out',
    run 2 false 1 (sample_4x4, [0; 0; 1; 1; 3; 3], []) = Ok (m', t', out')
    /\ steps_run m' = 2
    /\ length (segregation_shares m') = 2%nat.
Proof.
  pose (m' := mkModel 4 4 4 0.5 0 (grid sample_4x4) [1.5%float; 1.5%float] 2).
  pose (out' := [Clear; Print (grid sample_4x4); Clear; Print (grid sample_4x4)]).
  assert (H : run 2 false 1 (sample_4x4, [0; 0; 1; 1; 3; 3], []) = Ok (m', [3; 3], out'))
    by (vm_compute; reflexivity).
  exists m', [3; 3], out'. split; [exact H|].
  destruct (run_counts_every_step 2 false 1 sample_4x4 m' _ _ _ _ ltac:(lia) H)
    as (shares & _ & _ & Hr & Ha & _).
  split; [exact Hr|reflexivity].
Defined.

(** ** Where the source departs from its description *)

(** C2.  [run] with [print_every = 0] and at least one step never returns
    normally: as soon as the first step and its share are computed, the test
    [steps_run % print_every] raises [ZeroDivisionError]. *)
Theorem run_print_every_zero_raises (steps : Z) (print_at_end : bool)
    (m : SchellingModel) (t : tape) (out : list event) :
  1 <= steps ->
  (forall w', run steps print_at_end 0 (m, t, out) <> Ok w')
  /\ (forall m1 t1 s,
        run_one_step m t = Ok (m1, t1) ->
        get_segregation (count_step m1) = Ok s ->
        run steps print_at_end 0 (m, t, out) = Raise ZeroDivisionError).
Proof.
  intros Hs. destruct (Z.to_nat steps) as [|k] eqn:Ek; [lia|].
  unfold run. rewrite Ek. cbn [run_loop]. split.
  - intros [[m' t'] out'] H. bind_inv H. bind_inv E.
    destruct a0 as [[m2 t2] out2]. apply run_body_Ok in E0 as [Hne _]. lia.
  - intros m1 t1 s E1 E2. unfold run_body. rewrite E1. cbn [mbind result_bind].
    rewrite E2. reflexivity.
Qed.

Lemma run_print_every_zero_raises_witness :
  run 1000 true 0 (sample_4x4, [0; 0], []) = Raise ZeroDivisionError.
Proof.
  destruct (run_print_every_zero_raises 1000 true sample_4x4 [0; 0] [])
    as [_ H].
  - lia.
  - apply (H sample_4x4 [] 1.5%float); vm_compute; reflexivity.
Defined.

(** C1.  A model built on a 2 by 2 grid with [n_agents = 2] and threshold zero
    holds three agents, and [get_segregation] returns [1.5], which is not in
    the unit interval; so is every share a run records. *)
Theorem get_segregation_exceeds_one (share : float) (t t' : tape)
    (m : SchellingModel) :
  init (2, 2) 2 share 0 t = Ok (m, t') ->
  get_segregation m = Ok 1.5%float
  /\ PrimFloat.leb 1.5 1 = false
  /\ forall steps print_at_end print_every out m' t'' out',
       run steps print_at_end print_every (m, t', out) = Ok (m', t'', out') ->
       exists shares,
         segregation_shares m' = shares
         /\ Forall (fun s => s = 1.5%float) shares
         /\ Z.of_nat (length shares) = Z.max 0 steps.
Proof.
  intros H. apply init_Ok in H
    as (_ & _ & Hn & Ht & Hsh & _ & _ & _ & _ & _ & _ & Hw & HA & HB).
  assert (Ho : truediv (Z.of_nat (occupied (grid m))) (n_agents m) = 1.5%float).
  { unfold occupied. rewrite HA, HB, Hn. reflexivity. }
  split_and!.
  - rewrite get_segregation_zero; [congruence|assumption|assumption|lia].
  - reflexivity.
  - intros steps pae pe out m' t'' out' R. unfold run in R. bind_inv R.
    destruct a as [[m1 t1] out1]. injection R as <- <- <-.
    apply run_loop_stepped in E as [shares St].
    pose proof (stepped_counters _ _ _ _ St) as (Hl & _ & Ha). cbn [fst] in *.
    apply zero_threshold_shares in St as [F _]; [|assumption|assumption|lia].
    rewrite Ho in F. rewrite Hsh in Ha. cbn [app] in Ha.
    exists shares. split_and!; [exact Ha|exact F|lia].
Qed.

Lemma get_segregation_exceeds_one_witness :
  exists m, init (2, 2) 2 0.5 0 [0; 0; 0; 1; 1; 0] = Ok (m, [])
            /\ get_segregation m = Ok 1.5%float.
Proof.
  pose (m := mkModel 2 2 2 0.5 0 [[TypeA; TypeB]; [TypeB; Empty]] [] 0).
  assert (H : init (2, 2) 2 0.5 0 [0; 0; 0; 1; 1; 0] = Ok (m, []))
    by (vm_compute; reflexivity).
  exists m. split; [exact H|].
  exact (proj1 (get_segregation_exceeds_one 0.5 _ _ m H)).
Defined.

(** C3.  On a 2 by 2 grid with [n_agents = 3], which the validation accepts,
    construction places four agents: the grid it returns has no empty cell,
    and on that grid [__find_empty_cell] returns for no tape. *)
Theorem init_can_fill_the_grid (share threshold : float) (t t' : tape)
    (m : SchellingModel) :
  init (2, 2) 3 share threshold t = Ok (m, t') ->
  tally Empty (grid m) = 0%nat
  /\ (forall p, in_bounds m p ->
        exists c, grid_get (grid m) p = Ok c /\ c <> Empty)
  /\ (forall t1 p t2, find_empty_cell (grid m) t1 <> Ok (p, t2)).
Proof.
  intros H. apply init_Ok in H
    as (Hx & Hy & _ & _ & _ & _ & _ & _ & _ & _ & _ & Hw & HA & HB).
  cbn [fst snd] in Hx, Hy.
  assert (H0 : tally Empty (grid m) = 0%nat).
  { pose proof (tally_total _ _ _ Hw) as T. rewrite Hx, Hy, HA, HB in T.
    change (3 / 2) with 1 in T. lia. }
  split_and!.
  - exact H0.
  - intros p Hp. destruct (shaped_grid_get m p Hw Hp) as [c Hc].
    exists c. split; [exact Hc|]. intros ->.
    destruct p as [x y], Hp as [Hpx Hpy]. cbn [fst snd] in *.
    apply grid_get_cell_at_inv in Hc; [|lia..].
    apply tally_cell_at in Hc. lia.
  - intros t1 p t2. now apply full_grid_no_empty_cell.
Qed.

Lemma init_can_fill_the_grid_witness :
  exists m, init (2, 2) 3 0.5 0.5 [0; 0; 0; 1; 1; 0; 1; 1] = Ok (m, [])
            /\ tally Empty (grid m) = 0%nat.
Proof.
  pose (m := mkModel 2 2 3 0.5 0.5 [[TypeA; TypeB]; [TypeB; TypeB]] [] 0).
  assert (H : init (2, 2) 3 0.5 0.5 [0; 0; 0; 1; 1; 0; 1; 1] = Ok (m, []))
    by (vm_compute; reflexivity).
  exists m. split; [exact H|].
  exact (proj1 (init_can_fill_the_grid 0.5 0.5 _ _ m H)).
Defined.

(** C4.  In the scenario of a 4 by 4 grid, [n_agents = 4] and threshold zero,
    every neighbour relation is at least zero, six agents are on the grid, and
    after any run every recorded share and the value of [get_segregation] are
    [6 / 4 = 1.5], not [1.0]. *)
Theorem scenario_share_is_three_halves (share : float) (t t' : tape)
    (m : SchellingModel) :
  init (4, 4) 4 share 0 t = Ok (m, t') ->
  forall steps print_at_end print_every out m' t'' out',
    run steps print_at_end print_every (m, t', out) = Ok (m', t'', out') ->
    (forall p, in_bounds m' p ->
       exists r, get_neighbor_relation m' p = Ok r /\ PrimFloat.leb 0 r = true)
    /\ occupied (grid m') = 6%nat
    /\ get_segregation m' = Ok 1.5%float
    /\ Forall (fun s => s = 1.5%float) (segregation_shares m')
    /\ PrimFloat.eqb 1.5 1 = false.
Proof.
  intros H steps pae pe out m' t'' out' R. apply init_Ok in H
    as (_ & _ & Hn & Ht & Hsh & _ & _ & _ & _ & _ & _ & Hw & HA & HB).
  assert (Ho : truediv (Z.of_nat (occupied (grid m))) (n_agents m) = 1.5%float).
  { unfold occupied. rewrite HA, HB, Hn. reflexivity. }
  unfold run in R. bind_inv R. destruct a as [[m1 t1] out1].
  injection R as <- <- <-.
  apply run_loop_stepped in E as [shares St].
  pose proof (stepped_counters _ _ _ _ St) as (_ & _ & Ha). cbn [fst] in *.
  pose proof (stepped_kept _ m _ _ _ St (kept_refl m Hw)) as [K _].
  apply zero_threshold_shares in St as [F G]; [|assumption|assumption|lia].
  rewrite Ho in F, G. destruct K as (_ & _ & _ & _ & Kw & Kc). cbn [fst] in *.
  split_and!.
  - intros p Hp. destruct (shaped_grid_get m1 p Kw Hp) as [c Hc].
    rewrite (get_neighbor_relation_Ok m1 p c Kw Hc). eexists. split; [reflexivity|].
    apply relation_nonneg; apply neighbors_holding_range.
  - unfold occupied. rewrite !Kc, HA, HB. reflexivity.
  - exact G.
  - rewrite Ha, Hsh. exact F.
  - reflexivity.
Qed.

Lemma scenario_share_is_three_halves_witness :
  exists m',
    run 3 false 1 (sample_4x4, [0; 0; 1; 1; 3; 3], []) = Ok (m', [], [
      Clear; Print (grid sample_4x4); Clear; Print (grid sample_4x4);
      Clear; Print (grid sample_4x4)])
    /\ get_segregation m' = Ok 1.5%float.
Proof.
  pose (m' := mkModel 4 4 4 0.5 0 (grid sample_4x4)
                [1.5%float; 1.5%float; 1.5%float] 3).
  exists m'. split; [vm_compute; reflexivity|].
  destruct (scenario_share_is_three_halves 0.5
              (sample_tape ++ [0; 0; 1; 1; 3; 3]) [0; 0; 1; 1; 3; 3] sample_4x4
              (init_sample_4x4 [0; 0; 1; 1; 3; 3]) 3 false 1 [] m' []
              [Clear; Print (grid sample_4x4); Clear; Print (grid sample_4x4);
               Clear; Print (grid sample_4x4)])
    as (_ & _ & G & _).
  - vm_compute. reflexivity.
  - exact G.
Defined.

(** * Further properties *)

(** ** Validation *)

Lemma assert_cases (b : bool) :
  (b = true /\ assert b = Ok tt) \/ (b = false /\ assert b = Raise AssertionError).
Proof. destruct b; auto. Qed.

Lemma check_inputs_cases (m : SchellingModel) :
  (valid_config m /\ check_inputs m = Ok tt)
  \/ (~ valid_config m /\ check_inputs m = Raise AssertionError).
Proof.
  unfold check_inputs, valid_config.
  destruct (assert_cases ((1 <? x_size m) && (1 <? y_size m))) as [[B1 ->]|[B1 ->]];
    cbn [mbind result_bind].
  2: { right. split; [|reflexivity]. intros (H1 & H2 & _).
       apply Z.ltb_lt in H1, H2. rewrite H1, H2 in B1. discriminate. }
  destruct (assert_cases (n_agents m <? x_size m * y_size m)) as [[B2 ->]|[B2 ->]];
    cbn [mbind result_bind].
  2: { right. split; [|reflexivity]. intros (_ & _ & H & _).
       apply Z.ltb_lt in H. congruence. }
  destruct (assert_cases (1 <? n_agents m)) as [[B3 ->]|[B3 ->]];
    cbn [mbind result_bind].
  2: { right. split; [|reflexivity]. intros (_ & _ & _ & H & _).
       apply Z.ltb_lt in H. congruence. }
  destruct (assert_cases (PrimFloat.leb 0 (share_a m) && PrimFloat.leb (share_a m) 1))
    as [[B4 ->]|[B4 ->]]; cbn [mbind result_bind].
  2: { right. split; [|reflexivity]. intros (_ & _ & _ & _ & H1 & H2 & _).
       rewrite H1, H2 in B4. discriminate. }
  destruct (assert_cases (PrimFloat.leb 0 (stay_threshold m)
                          && PrimFloat.leb (stay_threshold m) 1)) as [[B5 E]|[B5 E]];
    rewrite E.
  2: { right. split; [|reflexivity]. intros (_ & _ & _ & _ & _ & _ & H1 & H2).
       rewrite H1, H2 in B5. discriminate. }
  left. split; [|reflexivity].
  apply andb_prop in B1 as [? ?], B4 as [? ?], B5 as [? ?].
  split_and!; try assumption; now apply Z.ltb_lt.
Qed.

(** X1.  [__check_inputs] accepts a configuration exactly when the grid is at
    least 2 by 2, there are more cells than [n_agents], [n_agents] is more
    than one, and both [share_a] and [stay_threshold] are in the unit
    interval; it raises [AssertionError] in every other case, and nothing
    else. *)
Theorem check_inputs_accepts_exactly (m : SchellingModel) :
  (check_inputs m = Ok tt <-> valid_config m)
  /\ (check_inputs m <> Ok tt -> check_inputs m = Raise AssertionError).
Proof.
  destruct (check_inputs_cases m) as [[V E]|[V E]]; rewrite E; split.
  - split; auto.
  - congruence.
  - split; [discriminate|contradiction].
  - reflexivity.
Qed.

(** X2.  The constructor fails with [AssertionError] on every configuration
    the validation rejects, before it asks the generator for anything: the
    outcome is the same on every tape, the empty one included. *)
Theorem init_rejects_before_drawing (grid_size : Z * Z) (agents : Z)
    (share threshold : float) (t : tape) :
  ~ valid_config (mkModel (fst grid_size) (snd grid_size) agents share threshold [] [] 0) ->
  init grid_size agents share threshold t = Raise AssertionError.
Proof.
  intros V. unfold init.
  destruct (check_inputs_cases
              (mkModel (fst grid_size) (snd grid_size) agents share threshold [] [] 0))
    as [[V' _]|[_ E]]; [contradiction|].
  rewrite E. reflexivity.
Qed.

Lemma init_rejects_before_drawing_witness :
  init (5, 5) 25 0.5 0.5 [] = Raise AssertionError.
Proof.
  apply init_rejects_before_drawing.
  unfold valid_config. cbn. lia.
Defined.

(** ** The searches, draw by draw *)

Lemma randint_mod (hi v : Z) (t : tape) :
  0 <= hi -> randint 0 hi (v :: t) = Ok (v mod (hi + 1), t).
Proof.
  intros H. unfold randint. destruct (Z.ltb_spec hi 0); [lia|].
  rewrite Z.sub_0_r. reflexivity.
Qed.

Lemma randint_short (hi : Z) : 0 <= hi -> randint 0 hi [] = Starved.
Proof. intros H. unfold randint. destruct (Z.ltb_spec hi 0); [lia|reflexivity]. Qed.

Lemma first_row (xs ys : Z) (g : Grid) :
  shaped xs ys g -> 0 < xs ->
  exists row0, py_getitem g 0 = Ok row0 /\ Z.of_nat (length row0) = ys.
Proof.
  intros [Hl Hr] Hx.
  destruct (lookup_lt_is_Some_2 g 0%nat) as [row0 E0]; [lia|].
  rewrite Forall_lookup in Hr. specialize (Hr _ _ E0). cbn in Hr.
  exists row0. split; [|exact Hr]. apply py_getitem_nat; [lia|exact E0].
Qed.

Lemma shaped_get (xs ys : Z) (g : Grid) (x y : Z) :
  shaped xs ys g -> 0 <= x < xs -> 0 <= y < ys ->
  exists c, grid_get g (x, y) = Ok c.
Proof.
  intros Hs Hx Hy.
  destruct (shaped_cell_at _ _ _ (Z.to_nat x) (Z.to_nat y) Hs) as [c Hc]; [lia..|].
  exists c. apply grid_get_cell_at; [lia..|exact Hc].
Qed.

(** One round of [__find_empty_cell] on a grid with cells. *)
Lemma find_empty_loop_round (rounds : nat) (xs ys : Z) (g : Grid)
    (vx vy : Z) (t : tape) :
  shaped xs ys g -> 0 < xs -> 0 < ys ->
  exists c, grid_get g (vx mod xs, vy mod ys) = Ok c
    /\ find_empty_loop (S rounds) g (vx :: vy :: t)
       = if truthy c then find_empty_loop rounds g t
         else Ok ((vx mod xs, vy mod ys), t).
Proof.
  intros Hs Hx Hy. pose proof Hs as [Hl _].
  destruct (first_row _ _ _ Hs Hx) as (row0 & E0 & Hr).
  destruct (shaped_get _ _ g (vx mod xs) (vy mod ys) Hs) as [c Hc];
    [apply Z.mod_pos_bound; lia..|].
  exists c. split; [exact Hc|]. cbn [find_empty_loop].
  rewrite Hl, randint_mod by lia. cbn [mbind result_bind].
  rewrite E0. cbn [mbind result_bind]. rewrite Hr, randint_mod by lia.
  cbn [mbind result_bind].
  replace (xs - 1 + 1) with xs by lia. replace (ys - 1 + 1) with ys by lia.
  rewrite Hc. reflexivity.
Qed.

Lemma find_empty_loop_short (rounds : nat) (xs ys : Z) (g : Grid) (t : tape) :
  shaped xs ys g -> 0 < xs -> 0 < ys -> (length t < 2)%nat ->
  find_empty_loop rounds g t = Starved.
Proof.
  intros Hs Hx Hy Ht. pose proof Hs as [Hl _].
  destruct rounds as [|n]; [reflexivity|]. cbn [find_empty_loop]. rewrite Hl.
  destruct t as [|v [|v' t]]; [| |cbn in Ht; lia].
  - rewrite randint_short by lia. reflexivity.
  - rewrite randint_mod by lia. cbn [mbind result_bind].
    destruct (first_row _ _ _ Hs Hx) as (row0 & E0 & Hr).
    rewrite E0. cbn [mbind result_bind]. rewrite Hr, randint_short by lia.
    reflexivity.
Qed.

(** The bound on the rounds never cuts a search short: the tape runs out
    first. *)
Lemma find_empty_loop_rounds (n1 n2 : nat) (xs ys : Z) (g : Grid) (t : tape) :
  shaped xs ys g -> 0 < xs -> 0 < ys ->
  (length t < 2 * n1)%nat -> (length t < 2 * n2)%nat ->
  find_empty_loop n1 g t = find_empty_loop n2 g t.
Proof.
  intros Hs Hx Hy. revert n2 t.
  induction n1 as [|n1 IH]; intros n2 t H1 H2; [lia|].
  destruct n2 as [|n2]; [lia|].
  destruct t as [|vx [|vy t]].
  - rewrite !(find_empty_loop_short _ xs ys) by (try assumption; cbn; lia).
    reflexivity.
  - rewrite !(find_empty_loop_short _ xs ys) by (try assumption; cbn; lia).
    reflexivity.
  - destruct (find_empty_loop_round n1 xs ys g vx vy t Hs Hx Hy) as (c & Hc & ->).
    destruct (find_empty_loop_round n2 xs ys g vx vy t Hs Hx Hy) as (c' & Hc' & ->).
    rewrite Hc in Hc'. injection Hc' as <-.
    destruct (truthy c); [|reflexivity]. cbn [length] in H1, H2.
    destruct (Nat.lt_ge_cases (length t) 2) as [Hs2|Hs2].
    + rewrite !(find_empty_loop_short _ xs ys) by assumption. reflexivity.
    + apply IH; lia.
Qed.

Lemma find_full_loop_round (rounds : nat) (m : SchellingModel) (vx vy : Z) (t : tape) :
  grid_wf m -> 0 < x_size m -> 0 < y_size m ->
  exists c, grid_get (grid m) (vx mod x_size m, vy mod y_size m) = Ok c
    /\ find_full_loop (S rounds) m (vx :: vy :: t)
       = if truthy c then Ok ((vx mod x_size m, vy mod y_size m), t)
         else find_full_loop rounds m t.
Proof.
  intros Hs Hx Hy.
  destruct (shaped_get _ _ (grid m) (vx mod x_size m) (vy mod y_size m) Hs)
    as [c Hc]; [apply Z.mod_pos_bound; lia..|].
  exists c. split; [exact Hc|]. cbn [find_full_loop].
  rewrite randint_mod by lia. cbn [mbind result_bind].
  rewrite randint_mod by lia. cbn [mbind result_bind].
  replace (x_size m - 1 + 1) with (x_size m) by lia.
  replace (y_size m - 1 + 1) with (y_size m) by lia.
  rewrite Hc. reflexivity.
Qed.

Lemma find_full_loop_short (rounds : nat) (m : SchellingModel) (t : tape) :
  0 < x_size m -> 0 < y_size m -> (length t < 2)%nat ->
  find_full_loop rounds m t = Starved.
Proof.
  intros Hx Hy Ht. destruct rounds as [|n]; [reflexivity|]. cbn [find_full_loop].
  destruct t as [|v [|v' t]]; [| |cbn in Ht; lia].
  - rewrite randint_short by lia. reflexivity.
  - rewrite randint_mod by lia. cbn [mbind result_bind].
    rewrite randint_short by lia. reflexivity.
Qed.

Lemma find_full_loop_rounds (n1 n2 : nat) (m : SchellingModel) (t : tape) :
  grid_wf m -> 0 < x_size m -> 0 < y_size m ->
  (length t < 2 * n1)%nat -> (length t < 2 * n2)%nat ->
  find_full_loop n1 m t = find_full_loop n2 m t.
Proof.
  intros Hs Hx Hy. revert n2 t.
  induction n1 as [|n1 IH]; intros n2 t H1 H2; [lia|].
  destruct n2 as [|n2]; [lia|].
  destruct t as [|vx [|vy t]].
  - rewrite !find_full_loop_short by (try assumption; cbn; lia). reflexivity.
  - rewrite !find_full_loop_short by (try assumption; cbn; lia). reflexivity.
  - destruct (find_full_loop_round n1 m vx vy t Hs Hx Hy) as (c & Hc & ->).
    destruct (find_full_loop_round n2 m vx vy t Hs Hx Hy) as (c' & Hc' & ->).
    rewrite Hc in Hc'. injection Hc' as <-.
    destruct (truthy c); [reflexivity|]. cbn [length] in H1, H2.
    destruct (Nat.lt_ge_cases (length t) 2) as [Hs2|Hs2].
    + rewrite !find_full_loop_short by assumption. reflexivity.
    + apply IH; lia.
Qed.

(** X3.  [__find_empty_cell] takes the draws two by two: a pair that lands on
    an occupied cell is dropped and the search goes on with the draws that
    follow, a pair that lands on an empty cell is returned with the rest of
    the tape, and with fewer than two draws left the search has not ended.
    What it returns is an empty cell inside the grid. *)
Theorem find_empty_cell_rejects_occupied (m : SchellingModel) :
  grid_wf m -> 0 < x_size m -> 0 < y_size m ->
  (forall vx vy t,
     exists c, grid_get (grid m) (vx mod x_size m, vy mod y_size m) = Ok c
       /\ find_empty_cell (grid m) (vx :: vy :: t)
          = if truthy c then find_empty_cell (grid m) t
            else Ok ((vx mod x_size m, vy mod y_size m), t))
  /\ find_empty_cell (grid m) [] = Starved
  /\ (forall v, find_empty_cell (grid m) [v] = Starved)
  /\ (forall t p t', find_empty_cell (grid m) t = Ok (p, t') ->
        in_bounds m p /\ grid_get (grid m) p = Ok Empty).
Proof.
  intros Hw Hx Hy. split_and!.
  - intros vx vy t. unfold find_empty_cell. cbn [length].
    destruct (find_empty_loop_round (S (S (length t))) _ _ (grid m) vx vy t Hw Hx Hy)
      as (c & Hc & ->).
    exists c. split; [exact Hc|]. destruct (truthy c); [|reflexivity].
    apply (find_empty_loop_rounds _ _ _ _ _ _ Hw Hx Hy); lia.
  - apply (find_empty_loop_short _ _ _ _ _ Hw Hx Hy). cbn. lia.
  - intros v. apply (find_empty_loop_short _ _ _ _ _ Hw Hx Hy). cbn. lia.
  - intros t p t' H. apply find_empty_cell_Ok in H as (He & Hpx & Hpy).
    split; [|exact He]. eapply shaped_in_bounds; eauto.
Qed.

Lemma find_empty_cell_rejects_occupied_witness :
  find_empty_cell (grid sample) [0; 0; 4; 2; 7] = Ok ((1, 2), [7]).
Proof.
  destruct (find_empty_cell_rejects_occupied sample) as (R & _).
  - split; [reflexivity|]. repeat constructor.
  - reflexivity.
  - reflexivity.
  - destruct (R 0 0 [4; 2; 7]) as (c & Hc & E).
    vm_compute in Hc. injection Hc as <-. rewrite E. cbn [truthy].
    destruct (R 4 2 [7]) as (c & Hc & E').
    vm_compute in Hc. injection Hc as <-. rewrite E'. reflexivity.
Defined.

(** X4.  [__find_full_cell] takes the draws two by two: a pair that lands on
    an empty cell is dropped and the search goes on, a pair that lands on an
    agent is returned with the rest of the tape.  What it returns is an
    occupied cell inside the grid, so on a grid without agents it returns for
    no tape. *)
Theorem find_full_cell_rejects_empty (m : SchellingModel) :
  grid_wf m -> 0 < x_size m -> 0 < y_size m ->
  (forall vx vy t,
     exists c, grid_get (grid m) (vx mod x_size m, vy mod y_size m) = Ok c
       /\ find_full_cell m (vx :: vy :: t)
          = if truthy c then Ok ((vx mod x_size m, vy mod y_size m), t)
            else find_full_cell m t)
  /\ find_full_cell m [] = Starved
  /\ (forall v, find_full_cell m [v] = Starved)
  /\ (forall t p t', find_full_cell m t = Ok (p, t') ->
        in_bounds m p
        /\ (grid_get (grid m) p = Ok TypeA \/ grid_get (grid m) p = Ok TypeB))
  /\ (occupied (grid m) = 0%nat -> forall t p t', find_full_cell m t <> Ok (p, t')).
Proof.
  intros Hw Hx Hy.
  assert (Sound : forall t p t', find_full_cell m t = Ok (p, t') ->
            in_bounds m p
            /\ (grid_get (grid m) p = Ok TypeA \/ grid_get (grid m) p = Ok TypeB)).
  { intros t p t' H. apply find_full_loop_Ok in H as (Hb & c & Hc & Hne).
    split; [exact Hb|]. destruct c; [congruence|auto..]. }
  split_and!.
  - intros vx vy t. unfold find_full_cell. cbn [length].
    destruct (find_full_loop_round (S (S (length t))) m vx vy t Hw Hx Hy)
      as (c & Hc & ->).
    exists c. split; [exact Hc|]. destruct (truthy c); [reflexivity|].
    apply find_full_loop_rounds; try assumption; lia.
  - apply find_full_loop_short; try assumption. cbn. lia.
  - intros v. apply find_full_loop_short; try assumption. cbn. lia.
  - exact Sound.
  - intros H0 t [x y] t' H. apply Sound in H as ([Hbx Hby] & Hc).
    cbn [fst snd] in *. unfold occupied in H0.
    destruct Hc as [Hc|Hc]; apply grid_get_cell_at_inv in Hc; try lia;
      apply tally_cell_at in Hc; lia.
Qed.

Lemma find_full_cell_rejects_empty_witness :
  find_full_cell sample [2; 2; 7; 3; 9] = Ok ((1, 0), [9]).
Proof.
  destruct (find_full_cell_rejects_empty sample) as (R & _).
  - split; [reflexivity|]. repeat constructor.
  - reflexivity.
  - reflexivity.
  - destruct (R 2 2 [7; 3; 9]) as (c & Hc & E).
    vm_compute in Hc. injection Hc as <-. rewrite E. cbn [truthy].
    destruct (R 7 3 [9]) as (c & Hc & E').
    vm_compute in Hc. injection Hc as <-. rewrite E'. reflexivity.
Defined.

(** ** What raises and what does not *)

Lemma find_empty_loop_quiet (rounds : nat) (xs ys : Z) (g : Grid) (t : tape) :
  shaped xs ys g -> 0 < xs -> 0 < ys ->
  raises_nothing (find_empty_loop rounds g t).
Proof.
  intros Hs Hx Hy. revert t. induction rounds as [|n IH]; intros t e; [discriminate|].
  destruct t as [|vx [|vy t]].
  - rewrite (find_empty_loop_short _ xs ys) by (try assumption; cbn; lia). discriminate.
  - rewrite (find_empty_loop_short _ xs ys) by (try assumption; cbn; lia). discriminate.
  - destruct (find_empty_loop_round n xs ys g vx vy t Hs Hx Hy) as (c & _ & ->).
    destruct (truthy c); [apply IH|discriminate].
Qed.

Lemma find_full_loop_quiet (rounds : nat) (m : SchellingModel) (t : tape) :
  grid_wf m -> 0 < x_size m -> 0 < y_size m ->
  raises_nothing (find_full_loop rounds m t).
Proof.
  intros Hs Hx Hy. revert t. induction rounds as [|n IH]; intros t e; [discriminate|].
  destruct t as [|vx [|vy t]].
  - rewrite find_full_loop_short by (try assumption; cbn; lia). discriminate.
  - rewrite find_full_loop_short by (try assumption; cbn; lia). discriminate.
  - destruct (find_full_loop_round n m vx vy t Hs Hx Hy) as (c & _ & ->).
    destruct (truthy c); [discriminate|apply IH].
Qed.

Lemma place_quiet (count : nat) (c : Cell) (xs ys : Z) (g : Grid) (t : tape) :
  shaped xs ys g -> 0 < xs -> 0 < ys -> raises_nothing (place count c g t).
Proof.
  intros Hs Hx Hy. revert g t Hs.
  induction count as [|n IH]; intros g t Hs e; cbn [place]; [discriminate|].
  destruct (find_empty_cell g t) as [[p t1]| |] eqn:E; cbn [mbind result_bind];
    [|exfalso; eapply (find_empty_loop_quiet _ xs ys g t); eauto|discriminate].
  apply find_empty_cell_Ok in E as (He & _).
  apply grid_get_Ok in He as (kx & ky & row & Er & Ec & _ & _ & Set_).
  rewrite Set_. cbn [mbind result_bind]. apply IH. eapply shaped_insert; eauto.
Qed.

Lemma run_one_step_quiet (m : SchellingModel) (t : tape) :
  grid_wf m -> 0 < x_size m -> 0 < y_size m ->
  raises_nothing (run_one_step m t).
Proof.
  intros Hw Hx Hy e. unfold run_one_step.
  destruct (find_full_cell m t) as [[pos t1]| |] eqn:E; cbn [mbind result_bind];
    [|exfalso; eapply (find_full_loop_quiet _ m t); eauto|discriminate].
  apply find_full_loop_Ok in E as ([Hbx Hby] & v & Hv & Hne).
  rewrite (get_neighbor_relation_Ok m pos v) by assumption.
  cbn [mbind result_bind].
  destruct (PrimFloat.ltb _ _); [|discriminate].
  destruct (find_empty_cell (grid m) t1) as [[new_pos t2]| |] eqn:E';
    cbn [mbind result_bind];
    [|exfalso; eapply (find_empty_loop_quiet _ _ _ (grid m) t1 Hw); eauto|discriminate].
  apply find_empty_cell_Ok in E' as (He & Hnx & Hny).
  rewrite Hv. cbn [mbind result_bind].
  destruct (move_agent (grid m) pos new_pos v _ _ Hw)
    as (g1 & g2 & S1 & S2 & _); try assumption; try lia.
  rewrite S1. cbn [mbind result_bind]. rewrite S2. discriminate.
Qed.

Lemma count_staying_range (m : SchellingModel) :
  grid_wf m ->
  exists staying, count_staying m = Ok staying
    /\ 0 <= staying <= Z.of_nat (occupied (grid m)).
Proof.
  intros Hw. rewrite count_staying_Ok by assumption. eexists. split; [reflexivity|].
  destruct Hw as [Hl Hr]. rewrite <- sumZ_occupied.
  unfold range at 2 4. rewrite !sumZ_map, <- Hl, Nat2Z.id.
  assert (Mono : forall (l : Grid) (w : nat -> Z) (v : list Cell -> Z),
            (forall k row, l !! k = Some row -> 0 <= w k <= v row) ->
            0 <= sumZ w (seq 0 (length l)) <= sumZ v l).
  { induction l as [|row l IH]; intros w v H; [cbn; lia|].
    cbn [length seq]. rewrite <- seq_shift. cbn [sumZ]. rewrite sumZ_map.
    pose proof (H 0%nat row eq_refl).
    pose proof (IH (fun k => w (S k)) v (fun k r Hk => H (S k) r Hk)). lia. }
  apply Mono. intros k row Ek.
  rewrite Forall_lookup in Hr. pose proof (Hr _ _ Ek) as Hy. cbn in Hy.
  rewrite <- sumZ_truthy_row. unfold range. rewrite sumZ_map, <- Hy, Nat2Z.id.
  assert (MonoR : forall (l : list Cell) (w : nat -> Z),
            (forall j c, l !! j = Some c -> 0 <= w j <= Z_of_bool (truthy c)) ->
            0 <= sumZ w (seq 0 (length l)) <= sumZ (fun c => Z_of_bool (truthy c)) l).
  { induction l as [|c l IH]; intros w H; [cbn; lia|].
    cbn [length seq]. rewrite <- seq_shift. cbn [sumZ]. rewrite sumZ_map.
    pose proof (H 0%nat c eq_refl).
    pose proof (IH (fun j => w (S j)) (fun j d Hj => H (S j) d Hj)). lia. }
  apply MonoR. intros j c Ej. unfold happy_at.
  rewrite (grid_get_cell_at (grid m) (Z.of_nat k) (Z.of_nat j) c); try lia.
  - destruct (truthy c), (PrimFloat.leb _ _); cbn; lia.
  - unfold cell_at. rewrite !Nat2Z.id, Ek. exact Ej.
Qed.

Lemma run_body_quiet (print_every : Z) (m : SchellingModel) (t : tape)
    (out : list event) :
  grid_wf m -> 0 < x_size m -> 0 < y_size m -> n_agents m <> 0 ->
  print_every <> 0 ->
  raises_nothing (run_body print_every (m, t, out)).
Proof.
  intros Hw Hx Hy Hn Hp e. unfold run_body.
  destruct (run_one_step m t) as [[m1 t1]| |] eqn:E; cbn [mbind result_bind];
    [|exfalso; eapply (run_one_step_quiet m t); eauto|discriminate].
  pose proof (run_one_step_kept m m m1 t t1 (kept_refl m Hw) E)
    as (_ & _ & Kn & _ & Kw & _).
  unfold get_segregation.
  destruct (count_staying_range (count_step m1) Kw) as (s & -> & _).
  cbn [mbind result_bind]. cbn [count_step n_agents]. rewrite Kn.
  destruct (Z.eqb_spec (n_agents m) 0); [contradiction|].
  cbn [mbind result_bind]. unfold py_mod.
  destruct (Z.eqb_spec print_every 0); [contradiction|]. discriminate.
Qed.

Lemma run_loop_quiet (k : nat) (print_every : Z) (m : SchellingModel) (t : tape)
    (out : list event) :
  grid_wf m -> 0 < x_size m -> 0 < y_size m -> n_agents m <> 0 ->
  print_every <> 0 ->
  raises_nothing (run_loop k print_every (m, t, out)).
Proof.
  revert m t out. induction k as [|k IH]; intros m t out Hw Hx Hy Hn Hp e;
    cbn [run_loop]; [discriminate|].
  destruct (run_body print_every (m, t, out)) as [[[m1 t1] out1]| |] eqn:E;
    cbn [mbind result_bind];
    [|exfalso; eapply (run_body_quiet print_every m t out); eauto|discriminate].
  apply run_body_Ok in E as (_ & m0 & s & E1 & _ & -> & _).
  pose proof (run_one_step_kept m m m0 t t1 (kept_refl m Hw) E1)
    as (Kx & Ky & Kn & _ & Kw & _).
  apply IH; cbn [record_share count_step x_size y_size n_agents];
    try assumption; lia.
Qed.

(** ** Whether construction returns *)

Lemma tally_row_exists (c : Cell) (row : list Cell) :
  (1 <= tally_row c row)%nat -> exists j, row !! j = Some c.
Proof.
  unfold tally_row. induction row as [|d row IH]; cbn [List.filter length]; [lia|].
  destruct (Cell_eqb c d) eqn:E.
  - intros _. exists 0%nat. destruct c, d; try discriminate; reflexivity.
  - intros H. destruct (IH H) as [j Hj]. exists (S j). exact Hj.
Qed.

Lemma tally_exists (c : Cell) (g : Grid) :
  (1 <= tally c g)%nat -> exists i j, cell_at g i j = Some c.
Proof.
  induction g as [|row g IH]; cbn [tally]; [lia|]. intros H.
  destruct (Nat.lt_ge_cases 0 (tally_row c row)) as [Hr|Hr].
  - destruct (tally_row_exists c row Hr) as [j Hj]. exists 0%nat, j. exact Hj.
  - destruct IH as (i & j & Hij); [lia|]. exists (S i), j. exact Hij.
Qed.

Lemma exists_empty_cell (xs ys : Z) (g : Grid) :
  shaped xs ys g -> (1 <= tally Empty g)%nat ->
  exists x y, 0 <= x < xs /\ 0 <= y < ys /\ grid_get g (x, y) = Ok Empty.
Proof.
  intros [Hl Hr] H. destruct (tally_exists _ _ H) as (i & j & Hij).
  exists (Z.of_nat i), (Z.of_nat j).
  pose proof Hij as Hc. unfold cell_at in Hc.
  destruct (g !! i) as [row|] eqn:Ei; [|discriminate]. cbn in Hc.
  rewrite Forall_lookup in Hr. specialize (Hr _ _ Ei). cbn in Hr.
  apply lookup_lt_Some in Ei, Hc.
  split_and!; try lia.
  apply grid_get_cell_at; [lia..|]. now rewrite !Nat2Z.id.
Qed.

Lemma place_possible (count : nat) (c : Cell) (xs ys : Z) (g : Grid) :
  shaped xs ys g -> c <> Empty -> (count <= tally Empty g)%nat ->
  exists (t : tape) (g' : Grid),
    forall rest, place count c g (t ++ rest) = Ok (g', rest).
Proof.
  intros Hs Hc. revert g Hs. induction count as [|n IH]; intros g Hs Hn.
  - exists [], g. reflexivity.
  - destruct (exists_empty_cell xs ys g Hs) as (x & y & Hx & Hy & He); [lia|].
    pose proof He as Hg.
    apply grid_get_Ok in Hg as (kx & ky & row & Er & Ec & _ & _ & Set_).
    pose proof (tally_insert Empty c Empty g kx ky row Er Ec) as T.
    assert (hit Empty Empty = 1%nat) as HE by reflexivity.
    assert (hit Empty c = 0%nat) as HC by (destruct c; [congruence|reflexivity..]).
    destruct (IH (<[kx := <[ky := c]> row]> g)) as (t & g' & Ht);
      [eapply shaped_insert; eauto|lia|].
    exists (x :: y :: t), g'. intros rest. cbn [app place].
    pose proof (find_empty_cell_hit (mkModel xs ys 0 0 0 g [] 0) x y (t ++ rest)
                  Hs (conj Hx Hy) He) as F.
    cbn [grid] in F. rewrite F. cbn [mbind result_bind]. rewrite Set_. cbn [mbind result_bind]. apply Ht.
Qed.

Lemma tally_empty_blank (xs ys : Z) :
  0 <= xs -> 0 <= ys ->
  Z.of_nat (tally Empty (replicate (Z.to_nat xs) (replicate (Z.to_nat ys) Empty)))
  = xs * ys.
Proof.
  intros Hx Hy. pose proof (tally_total xs ys _ (shaped_blank xs ys Hx Hy)) as T.
  rewrite (tally_blank TypeA), (tally_blank TypeB) in T by discriminate. lia.
Qed.

(** X5.  When [floor(n_agents / 2) + n_agents] agents fit the grid, the
    constructor can return: some draws make it return, whatever follows them
    on the tape, and they are left unread. *)
Theorem init_can_return (grid_size : Z * Z) (agents : Z) (share threshold : float) :
  valid_config (mkModel (fst grid_size) (snd grid_size) agents share threshold [] [] 0) ->
  agents / 2 + agents <= fst grid_size * snd grid_size ->
  exists (t : tape) (m : SchellingModel),
    forall rest, init grid_size agents share threshold (t ++ rest) = Ok (m, rest).
Proof.
  intros V Hfit. unfold init.
  destruct (check_inputs_cases
              (mkModel (fst grid_size) (snd grid_size) agents share threshold [] [] 0))
    as [[_ E]|[N _]]; [|contradiction].
  rewrite E. cbn [mbind result_bind]. destruct V as (Hx & Hy & Hn & Hn1 & _).
  cbn [x_size y_size n_agents] in *. unfold initialize_grid.
  cbn [x_size y_size n_agents].
  set (xs := fst grid_size) in *. set (ys := snd grid_size) in *.
  set (g0 := replicate (Z.to_nat xs) (replicate (Z.to_nat ys) Empty)).
  assert (S0 : shaped xs ys g0) by (apply shaped_blank; lia).
  assert (T0 : Z.of_nat (tally Empty g0) = xs * ys) by (apply tally_empty_blank; lia).
  assert (0 <= agents / 2) by (apply Z.div_pos; lia).
  destruct (place_possible (Z.to_nat (agents / 2)) TypeA xs ys g0 S0)
    as (tA & g1 & HA); [discriminate|lia|].
  pose proof (HA []) as HA0. rewrite app_nil_r in HA0.
  assert (NA : TypeA <> Empty) by discriminate.
  destruct (place_tally _ _ _ _ _ _ xs ys NA S0 HA0) as (S1 & A1 & O1).
  pose proof (tally_total _ _ _ S0) as Tot0. pose proof (tally_total _ _ _ S1) as Tot1.
  rewrite (O1 TypeB) in Tot1 by discriminate.
  destruct (place_possible (Z.to_nat agents) TypeB xs ys g1 S1)
    as (tB & g2 & HB); [discriminate|lia|].
  exists (tA ++ tB).
  eexists. intros rest. rewrite <- app_assoc, HA. cbn [mbind result_bind].
  rewrite HB. reflexivity.
Qed.

Lemma init_can_return_witness :
  exists (t : tape) (m : SchellingModel),
    forall rest, init (2, 2) 2 0.5 0.5 (t ++ rest) = Ok (m, rest).
Proof.
  apply init_can_return.
  - unfold valid_config. cbn. split_and!; try lia; reflexivity.
  - vm_compute. discriminate.
Defined.

Lemma init_quiet (grid_size : Z * Z) (agents : Z) (share threshold : float)
    (t : tape) :
  valid_config (mkModel (fst grid_size) (snd grid_size) agents share threshold [] [] 0) ->
  raises_nothing (init grid_size agents share threshold t).
Proof.
  intros V e. unfold init.
  destruct (check_inputs_cases
              (mkModel (fst grid_size) (snd grid_size) agents share threshold [] [] 0))
    as [[_ E]|[N _]]; [|contradiction].
  rewrite E. cbn [mbind result_bind]. destruct V as (Hx & Hy & _).
  cbn [x_size y_size] in *. unfold initialize_grid. cbn [x_size y_size n_agents].
  set (xs := fst grid_size) in *. set (ys := snd grid_size) in *.
  set (g0 := replicate (Z.to_nat xs) (replicate (Z.to_nat ys) Empty)).
  assert (S0 : shaped xs ys g0) by (apply shaped_blank; lia).
  destruct (place (Z.to_nat (agents / 2)) TypeA g0 t) as [[g1 t1]| |] eqn:EA;
    cbn [mbind result_bind];
    [|exfalso; eapply (place_quiet _ TypeA xs ys g0 t); eauto; lia|discriminate].
  assert (NA : TypeA <> Empty) by discriminate.
  destruct (place_tally _ _ _ _ _ _ xs ys NA S0 EA) as (S1 & _).
  destruct (place (Z.to_nat agents) TypeB g1 t1) as [[g2 t2]| |] eqn:EB;
    cbn [mbind result_bind];
    [discriminate|exfalso; eapply (place_quiet _ TypeB xs ys g1 t1); eauto; lia
    |discriminate].
Qed.

(** X6.  When [floor(n_agents / 2) + n_agents] exceeds the number of cells,
    the constructor of an accepted configuration returns for no tape and
    raises nothing: it keeps drawing for a cell that is not there. *)
Theorem init_never_returns_when_overfull (grid_size : Z * Z) (agents : Z)
    (share threshold : float) (t : tape) :
  valid_config (mkModel (fst grid_size) (snd grid_size) agents share threshold [] [] 0) ->
  fst grid_size * snd grid_size < agents / 2 + agents ->
  init grid_size agents share threshold t = Starved.
Proof.
  intros V Hover.
  destruct (init grid_size agents share threshold t) as [[m t']|e|] eqn:E.
  - exfalso. apply init_Ok in E
      as (Hx & Hy & _ & _ & _ & _ & _ & _ & Hn & _ & _ & Hw & HA & HB).
    pose proof (tally_total _ _ _ Hw) as T. rewrite Hx, Hy, HA, HB in T.
    assert (0 <= agents / 2) by (apply Z.div_pos; lia). lia.
  - exfalso. eapply init_quiet; eauto.
  - reflexivity.
Qed.

Lemma init_never_returns_when_overfull_witness :
  init (3, 3) 8 0.5 0.5 [0; 0; 1; 1; 2; 2; 0; 1; 0; 2; 1; 0; 1; 2; 2; 0; 2; 1; 1; 1]
  = Starved.
Proof.
  apply init_never_returns_when_overfull.
  - unfold valid_config. cbn. split_and!; try lia; reflexivity.
  - reflexivity.
Defined.

(** ** The neighbourhood *)

Lemma Position_eqb_false (p q : Position) : Position_eqb p q = false <-> p <> q.
Proof.
  destruct p as [a b], q as [c d]. unfold Position_eqb. cbn [fst snd].
  destruct (Z.eqb_spec a c), (Z.eqb_spec b d); cbn; split; intros H;
    try reflexivity; try discriminate; congruence.
Qed.

Lemma in_offsets (d : Z) : In d [-1; 0; 1] <-> Z.abs d <= 1.
Proof. cbn [In]. lia. Qed.

Lemma in_neighbor_positions (m : SchellingModel) (p q : Position) :
  In q (get_neighbor_positions m p)
  <-> in_bounds m q /\ q <> p
      /\ Z.abs (fst q - fst p) <= 1 /\ Z.abs (snd q - snd p) <= 1.
Proof.
  unfold get_neighbor_positions, in_bounds. rewrite in_flat_map. split.
  - intros (i & Hi & H). apply in_flat_map in H as (j & Hj & H).
    apply in_offsets in Hi, Hj.
    destruct (_ && _) eqn:E in H; [|contradiction].
    destruct H as [<-|[]]. cbn [fst snd].
    repeat (apply andb_prop in E as [E ?]).
    match goal with
    | N : negb _ = true |- _ => apply negb_true_iff, Position_eqb_false in N
    end.
    split_and!; try lia. assumption.
  - intros ((Hx & Hy) & Hne & Dx & Dy).
    exists (fst q - fst p). split; [now apply in_offsets|].
    apply in_flat_map. exists (snd q - snd p). split; [now apply in_offsets|].
    replace (fst p + (fst q - fst p)) with (fst q) by lia.
    replace (snd p + (snd q - snd p)) with (snd q) by lia.
    replace (fst q, snd q) with q by (destruct q; reflexivity).
    apply Position_eqb_false in Hne. rewrite Hne.
    replace (0 <=? fst q) with true by (symmetry; apply Z.leb_le; lia).
    replace (fst q <? x_size m) with true by (symmetry; apply Z.ltb_lt; lia).
    replace (0 <=? snd q) with true by (symmetry; apply Z.leb_le; lia).
    replace (snd q <? y_size m) with true by (symmetry; apply Z.ltb_lt; lia).
    left. reflexivity.
Qed.

Lemma neighbor_positions_filter (m : SchellingModel) (p : Position) :
  get_neighbor_positions m p
  = List.filter
      (fun q => (0 <=? fst q) && (fst q <? x_size m) && (0 <=? snd q)
                && (snd q <? y_size m) && negb (Position_eqb q p))
      [(fst p + -1, snd p + -1); (fst p + -1, snd p + 0); (fst p + -1, snd p + 1);
       (fst p + 0, snd p + -1); (fst p + 0, snd p + 0); (fst p + 0, snd p + 1);
       (fst p + 1, snd p + -1); (fst p + 1, snd p + 0); (fst p + 1, snd p + 1)].
Proof.
  unfold get_neighbor_positions. cbn [flat_map List.filter fst snd].
  repeat match goal with
  | |- context [if ?b then _ else _] => destruct b
  end; reflexivity.
Qed.

Lemma neighbor_positions_NoDup (m : SchellingModel) (p : Position) :
  List.NoDup (get_neighbor_positions m p).
Proof.
  rewrite neighbor_positions_filter. apply List.NoDup_filter.
  repeat (constructor;
          [cbn [In]; intros Hin;
           repeat (destruct Hin as [Hin|Hin]; [inversion Hin; lia|]); exact Hin|]).
  constructor.
Qed.

(** X7.  The neighbours of a position, inside the grid or not, are exactly the
    positions of the grid other than itself that differ from it by at most one
    in each coordinate, and each of them is listed once. *)
Theorem neighbor_positions_are_the_adjacent_cells (m : SchellingModel)
    (p : Position) :
  (forall q, In q (get_neighbor_positions m p)
     <-> in_bounds m q /\ q <> p
         /\ Z.abs (fst q - fst p) <= 1 /\ Z.abs (snd q - snd p) <= 1)
  /\ List.NoDup (get_neighbor_positions m p).
Proof.
  split; [intros q; apply in_neighbor_positions|apply neighbor_positions_NoDup].
Qed.

(** X8.  Being a neighbour is symmetric between cells of the grid: [q] is
    listed for [p] exactly when [p] is listed for [q]. *)
Theorem neighbor_positions_symmetric (m : SchellingModel) (p q : Position) :
  in_bounds m p -> in_bounds m q ->
  (In q (get_neighbor_positions m p) <-> In p (get_neighbor_positions m q)).
Proof.
  intros Hp Hq. rewrite !in_neighbor_positions.
  split; intros (_ & Hne & Dx & Dy); split_and!; try assumption; try lia;
    congruence.
Qed.

Lemma neighbor_positions_symmetric_witness :
  In (1, 2) (get_neighbor_positions sample (0, 1))
  <-> In (0, 1) (get_neighbor_positions sample (1, 2)).
Proof.
  apply neighbor_positions_symmetric; split; cbn; lia.
Defined.

Lemma holds_partition (g : Grid) (ns : list Position) :
  Forall (fun p => exists c, grid_get g p = Ok c) ns ->
  (length (List.filter (holds g TypeA) ns) + length (List.filter (holds g TypeB) ns)
   + length (List.filter (holds g Empty) ns))%nat = length ns.
Proof.
  induction 1 as [|p ns [c Hc] _ IH]; [reflexivity|].
  assert (HA : holds g TypeA p = Cell_eqb TypeA c) by (unfold holds; now rewrite Hc).
  assert (HB : holds g TypeB p = Cell_eqb TypeB c) by (unfold holds; now rewrite Hc).
  assert (HE : holds g Empty p = Cell_eqb Empty c) by (unfold holds; now rewrite Hc).
  cbn [List.filter]. rewrite HA, HB, HE.
  destruct c; cbn [Cell_eqb length]; lia.
Qed.

(** X9.  On a grid of the configured shape [__count_neighbors] raises nothing,
    for any position: it returns the number of neighbours holding A and the
    number holding B, and together with the empty neighbours they are all the
    neighbours, at most eight. *)
Theorem count_neighbors_partitions_the_neighbours (m : SchellingModel)
    (p : Position) :
  grid_wf m ->
  count_neighbors m p = Ok (neighbors_holding m TypeA p, neighbors_holding m TypeB p)
  /\ 0 <= neighbors_holding m TypeA p
  /\ 0 <= neighbors_holding m TypeB p
  /\ neighbors_holding m TypeA p + neighbors_holding m TypeB p
     + neighbors_holding m Empty p
     = Z.of_nat (length (get_neighbor_positions m p))
  /\ neighbors_holding m TypeA p + neighbors_holding m TypeB p <= 8.
Proof.
  intros Hw.
  assert (P : (length (List.filter (holds (grid m) TypeA) (get_neighbor_positions m p))
               + length (List.filter (holds (grid m) TypeB) (get_neighbor_positions m p))
               + length (List.filter (holds (grid m) Empty) (get_neighbor_positions m p)))%nat
              = length (get_neighbor_positions m p)).
  { apply holds_partition. eapply Forall_impl; [apply neighbor_positions_in_bounds|].
    intros q Hq. now apply shaped_grid_get. }
  pose proof (neighbor_positions_length m p).
  unfold neighbors_holding in *. split_and!; try lia.
  now apply count_neighbors_Ok.
Qed.

Lemma count_neighbors_partitions_the_neighbours_witness :
  count_neighbors sample (1, 1) = Ok (3, 1).
Proof.
  destruct (count_neighbors_partitions_the_neighbours sample (1, 1)) as (H & _).
  - split; [reflexivity|]. repeat constructor.
  - exact H.
Defined.

Lemma relation_range (c : Cell) (a b : Z) :
  0 <= a -> 0 <= b -> a + b <= 8 ->
  PrimFloat.leb 0 (relation_of c a b) = true
  /\ PrimFloat.leb (relation_of c a b) 7 = true.
Proof.
  intros Ha Hb Hab.
  assert (Ha' : 0 <= a <= 8) by lia. assert (Hb' : 0 <= b <= 8) by lia.
  apply small_count in Ha', Hb'.
  repeat (destruct Ha' as [->|Ha']); try subst a;
    repeat (destruct Hb' as [->|Hb']); try subst b;
    try lia; destruct c; vm_compute; split; reflexivity.
Qed.

(** X10.  On a grid of the configured shape the neighbour relation of an
    in-bounds position is a number between [0.0] and [7.0]: it is never
    negative, infinite or undefined. *)
Theorem neighbor_relation_between_0_and_7 (m : SchellingModel) (p : Position) :
  grid_wf m -> in_bounds m p ->
  exists r, get_neighbor_relation m p = Ok r
    /\ PrimFloat.leb 0 r = true /\ PrimFloat.leb r 7 = true.
Proof.
  intros Hw Hp. destruct (shaped_grid_get m p Hw Hp) as [c Hc].
  rewrite (get_neighbor_relation_Ok m p c Hw Hc). eexists. split; [reflexivity|].
  assert (P : (length (List.filter (holds (grid m) TypeA) (get_neighbor_positions m p))
               + length (List.filter (holds (grid m) TypeB) (get_neighbor_positions m p))
               + length (List.filter (holds (grid m) Empty) (get_neighbor_positions m p)))%nat
              = length (get_neighbor_positions m p)).
  { apply holds_partition. eapply Forall_impl; [apply neighbor_positions_in_bounds|].
    intros q Hq. now apply shaped_grid_get. }
  pose proof (neighbor_positions_length m p).
  apply relation_range; unfold neighbors_holding; lia.
Qed.

Lemma neighbor_relation_between_0_and_7_witness :
  exists r, get_neighbor_relation sample (1, 1) = Ok r
    /\ PrimFloat.leb 0 r = true /\ PrimFloat.leb r 7 = true.
Proof.
  apply neighbor_relation_between_0_and_7.
  - split; [reflexivity|]. repeat constructor.
  - split; cbn; lia.
Defined.

(** ** Runs *)

Lemma run_Ok (steps : Z) (print_at_end : bool) (print_every : Z)
    (m m' : SchellingModel) (t t' : tape) (out out' : list event) :
  run steps print_at_end print_every (m, t, out) = Ok (m', t', out') ->
  exists out1,
    run_loop (Z.to_nat steps) print_every (m, t, out) = Ok (m', t', out1)
    /\ out' = (if print_at_end then show m' out1 else out1).
Proof.
  unfold run. intros H. bind_inv H. destruct a as [[m1 t1] out1].
  injection H as <- <- <-. eauto.
Qed.

Lemma zero_threshold_step (m m' : SchellingModel) (t t' : tape) :
  grid_wf m -> stay_threshold m = 0%float ->
  run_one_step m t = Ok (m', t') -> m' = m.
Proof.
  intros Hw Ht H.
  apply run_one_step_Ok in H as (pos & v & r & t1 & _ & _ & Hv & _ & Hr & H);
    [|assumption].
  destruct H as [(_ & -> & _)|(Hlt & _)]; [reflexivity|]. exfalso.
  rewrite (get_neighbor_relation_Ok m pos v Hw Hv) in Hr. injection Hr as <-.
  rewrite Ht in Hlt.
  rewrite float_ge_not_lt in Hlt; [discriminate|].
  apply relation_nonneg; apply neighbors_holding_range.
Qed.

Lemma zero_threshold_stepped (k : nat) (w w' : SchellingModel * tape)
    (shares : list float) :
  stepped k w w' shares ->
  grid_wf (fst w) -> stay_threshold (fst w) = 0%float ->
  grid (fst w') = grid (fst w).
Proof.
  induction 1 as [w|k m m1 t t1 s w' shares E1 E2 _ IH]; intros Hw Ht;
    [reflexivity|].
  cbn [fst] in *. apply zero_threshold_step in E1; [|assumption..]. subst m1.
  rewrite IH; [reflexivity|exact Hw|exact Ht].
Qed.

(** X11.  With [stay_threshold = 0.0], which the validation accepts, no agent
    ever moves: a step that returns leaves the model as it was, and a run that
    returns leaves the grid as it was. *)
Theorem zero_threshold_nobody_moves (m : SchellingModel) :
  grid_wf m -> stay_threshold m = 0%float ->
  (forall t m' t', run_one_step m t = Ok (m', t') -> m' = m)
  /\ (forall steps print_at_end print_every t out m' t' out',
        run steps print_at_end print_every (m, t, out) = Ok (m', t', out') ->
        grid m' = grid m).
Proof.
  intros Hw Ht. split.
  - intros t m' t'. now apply zero_threshold_step.
  - intros steps pae pe t out m' t' out' H.
    apply run_Ok in H as (out1 & H & _). apply run_loop_stepped in H as [shares St].
    apply zero_threshold_stepped in St; assumption.
Qed.

Lemma zero_threshold_nobody_moves_witness :
  run_one_step sample_4x4 [2; 1; 0; 1] = Ok (sample_4x4, [0; 1]).
Proof.
  destruct (zero_threshold_nobody_moves sample_4x4) as [H _].
  - split; [reflexivity|]. repeat constructor.
  - reflexivity.
  - destruct (run_one_step sample_4x4 [2; 1; 0; 1]) as [[m' t']| |] eqn:E.
    + pose proof (H _ _ _ E) as ->. vm_compute in E. injection E as <-. reflexivity.
    + vm_compute in E. discriminate.
    + vm_compute in E. discriminate.
Defined.

Lemma run_loop_add (j k : nat) (print_every : Z)
    (w : SchellingModel * tape * list event) :
  run_loop (j + k) print_every w
  = (run_loop j print_every w ≫= run_loop k print_every).
Proof.
  revert w. induction j as [|j IH]; intros w; [reflexivity|].
  cbn [Nat.add run_loop].
  destruct (run_body print_every w) as [w1| |]; cbn [mbind result_bind];
    [apply IH|reflexivity..].
Qed.

(** X12.  Runs compose: [a + b] steps in one call are [a] steps in a call that
    does not print at its end, followed by [b] steps in a second call on the
    model, the generator and the console the first one left. *)
Theorem run_composes (a b : Z) (print_at_end : bool) (print_every : Z)
    (w : SchellingModel * tape * list event) :
  0 <= a -> 0 <= b ->
  run (a + b) print_at_end print_every w
  = (run a false print_every w ≫= run b print_at_end print_every).
Proof.
  intros Ha Hb. unfold run. rewrite Z2Nat.inj_add, run_loop_add by assumption.
  destruct (run_loop (Z.to_nat a) print_every w) as [[[m t] out]| |];
    reflexivity.
Qed.

Lemma run_composes_witness :
  run (1 + 2) true 2 (sample_4x4, [0; 0; 1; 1; 3; 3], [])
  = (run 1 false 2 (sample_4x4, [0; 0; 1; 1; 3; 3], []) ≫= run 2 true 2).
Proof. apply run_composes; lia. Defined.

(** X13.  A call of [run] with no step to make, [steps] zero or negative,
    returns at once whatever [print_every] is, zero included: the model and
    the generator are untouched and the console gets the final rendering
    when it is asked for. *)
Theorem run_without_steps (steps : Z) (print_at_end : bool) (print_every : Z)
    (m : SchellingModel) (t : tape) (out : list event) :
  steps <= 0 ->
  run steps print_at_end print_every (m, t, out)
  = Ok (m, t, if print_at_end then out ++ [Clear; Print (grid m)] else out).
Proof.
  intros Hs. unfold run. replace (Z.to_nat steps) with 0%nat by lia. reflexivity.
Qed.

Lemma run_without_steps_witness :
  run (-3) true 0 (sample, [], []) = Ok (sample, [], [Clear; Print (grid sample)]).
Proof. apply run_without_steps. lia. Defined.

Lemma run_body_steps_run (print_every : Z) (m m' : SchellingModel) (t t' : tape)
    (out out' : list event) :
  run_body print_every (m, t, out) = Ok (m', t', out') ->
  steps_run m' = steps_run m + 1
  /\ out' = (if steps_run m' mod print_every =? 0 then show m' out else out).
Proof.
  intros H. apply run_body_Ok in H as (_ & m1 & s & E1 & _ & -> & ->).
  apply run_one_step_fields in E1. split; [|reflexivity].
  rewrite E1. reflexivity.
Qed.

Lemma run_loop_prints_every_step (k : nat) (print_every : Z)
    (m m' : SchellingModel) (t t' : tape) (out out' : list event) :
  print_every = 1 \/ print_every = -1 ->
  run_loop k print_every (m, t, out) = Ok (m', t', out') ->
  exists grids : list Grid,
    out' = out ++ flat_map (fun g => [Clear; Print g]) grids
    /\ length grids = k
    /\ forall (i : nat) (g : Grid), grids !! i = Some g ->
         exists mi ti si, stepped (S i) (m, t) (mi, ti) si /\ grid mi = g.
Proof.
  intros Hp. revert m t out. induction k as [|k IH]; intros m t out H;
    cbn [run_loop] in H.
  - injection H as <- <- <-. exists []. cbn [flat_map]. rewrite app_nil_r.
    split_and!; [reflexivity..|]. intros i g Hi. discriminate.
  - bind_inv H. destruct a as [[m1 t1] out1].
    pose proof E as B. apply run_body_steps_run in B as (_ & ->).
    apply run_body_Ok in E as (_ & m0 & s & E1 & E2 & Em & _).
    apply IH in H as (grids & -> & Hl & Hg).
    replace (steps_run m1 mod print_every) with 0
      by (destruct Hp as [-> | ->]; [now rewrite Z.mod_1_r|];
          symmetry; apply Z.mod_divide; [lia|]; exists (- steps_run m1); lia).
    cbn [Z.eqb]. unfold show. exists (grid m1 :: grids).
    cbn [flat_map length]. rewrite <- app_assoc. split_and!; [reflexivity|lia|].
    intros [|i] g Hi.
    + cbn in Hi. injection Hi as <-. exists m1, t1, [s]. split; [|reflexivity].
      subst m1. econstructor; [exact E1|exact E2|constructor].
    + cbn in Hi. destruct (Hg i g Hi) as (mi & ti & si & St & Hgi).
      exists mi, ti, (s :: si). split; [|exact Hgi].
      subst m1. econstructor; [exact E1|exact E2|exact St].
Qed.

Lemma run_loop_prints_nothing (k : nat) (print_every : Z)
    (m m' : SchellingModel) (t t' : tape) (out out' : list event) :
  0 <= steps_run m -> steps_run m + Z.of_nat k < print_every ->
  run_loop k print_every (m, t, out) = Ok (m', t', out') ->
  out' = out.
Proof.
  revert m t out. induction k as [|k IH]; intros m t out H0 Hp H;
    cbn [run_loop] in H.
  - injection H as <- <- <-. reflexivity.
  - bind_inv H. destruct a as [[m1 t1] out1].
    apply run_body_steps_run in E as (Hs & ->).
    apply IH in H; [|lia..]. rewrite H.
    rewrite Z.mod_small by lia.
    destruct (Z.eqb_spec (steps_run m1) 0); [lia|reflexivity].
Qed.

(** X14.  With [print_every] set to [1] or to [-1] a run that returns has
    written to the console, after what the console held, one [clear_output]
    followed by one rendering for every step, in order, the rendering of step
    [i + 1] showing the grid that [i + 1] steps left, and after them the final
    clearing and rendering when asked: the value [-1] does not switch the
    updates off. *)
Theorem run_prints_after_every_step (steps : Z) (print_at_end : bool)
    (print_every : Z) (m m' : SchellingModel) (t t' : tape)
    (out out' : list event) :
  print_every = 1 \/ print_every = -1 ->
  run steps print_at_end print_every (m, t, out) = Ok (m', t', out') ->
  exists grids : list Grid,
    out' = out ++ flat_map (fun g => [Clear; Print g]) grids
               ++ (if print_at_end then [Clear; Print (grid m')] else [])
    /\ length grids = Z.to_nat steps
    /\ (forall (i : nat) (g : Grid), grids !! i = Some g ->
          exists mi ti si, stepped (S i) (m, t) (mi, ti) si /\ grid mi = g)
    /\ Z.of_nat (length out')
       = Z.of_nat (length out) + 2 * Z.max 0 steps
         + (if print_at_end then 2 else 0).
Proof.
  intros Hp H. apply run_Ok in H as (out1 & H & ->).
  apply (run_loop_prints_every_step _ _ _ _ _ _ _ _ Hp) in H
    as (grids & -> & Hl & Hg).
  exists grids.
  assert (Hf : length (flat_map (fun g : Grid => [Clear; Print g]) grids)
               = (2 * length grids)%nat).
  { clear. induction grids as [|g gs IH]; [reflexivity|].
    cbn [flat_map length app]. rewrite IH. lia. }
  split_and!; [|exact Hl|exact Hg|].
  - destruct print_at_end; unfold show;
      [now rewrite <- app_assoc|now rewrite app_nil_r].
  - destruct print_at_end; unfold show; rewrite ?length_app, Hf; cbn [length]; lia.
Qed.

Lemma run_prints_after_every_step_witness :
  match run 2 true (-1) (sample, [1; 0; 2; 2; 0; 0], []) with
  | Ok (m', _, out') =>
      exists g1 g2,
        out' = [Clear; Print g1; Clear; Print g2; Clear; Print (grid m')]
        /\ g1 <> grid sample
  | _ => False
  end.
Proof.
  destruct (run 2 true (-1) (sample, [1; 0; 2; 2; 0; 0], []))
    as [[[m' t'] out']| |] eqn:H.
  - destruct (run_prints_after_every_step 2 true (-1) sample m'
                [1; 0; 2; 2; 0; 0] t' [] out' (or_intror eq_refl) H)
      as (grids & Ho & Hl & _).
    destruct grids as [|g1 [|g2 [|g3 grids]]]; try discriminate Hl.
    exists g1, g2. split; [exact Ho|].
    vm_compute in H. injection H as _ _ <-. injection Ho as <- _.
    discriminate.
  - vm_compute in H. discriminate.
  - vm_compute in H. discriminate.
Defined.

(** X15.  With [print_every] larger than the number of steps run so far plus
    the steps of the call, a run that returns has printed nothing but the
    final rendering, when asked. *)
Theorem run_prints_nothing_below_period (steps : Z) (print_at_end : bool)
    (print_every : Z) (m m' : SchellingModel) (t t' : tape)
    (out out' : list event) :
  0 <= steps_run m -> steps_run m + Z.max 0 steps < print_every ->
  run steps print_at_end print_every (m, t, out) = Ok (m', t', out') ->
  out' = (if print_at_end then out ++ [Clear; Print (grid m')] else out).
Proof.
  intros H0 Hp H. apply run_Ok in H as (out1 & H & ->).
  apply run_loop_prints_nothing in H; [|lia..]. subst out1. reflexivity.
Qed.

Lemma run_prints_nothing_below_period_witness :
  match run 2 false 3 (sample_4x4, [0; 0; 1; 1], []) with
  | Ok (_, _, out') => out' = []
  | _ => False
  end.
Proof.
  destruct (run 2 false 3 (sample_4x4, [0; 0; 1; 1], [])) as [[[m' t'] out']| |] eqn:H.
  - apply (run_prints_nothing_below_period 2 false 3 sample_4x4 m' [0; 0; 1; 1] t' [] out');
      [cbn; lia|cbn; lia|exact H].
  - vm_compute in H. discriminate.
  - vm_compute in H. discriminate.
Defined.

(** ** What holds of every model a program can hold *)

Lemma stepped_share_a (k : nat) (w w' : SchellingModel * tape) (shares : list float) :
  stepped k w w' shares -> share_a (fst w') = share_a (fst w).
Proof.
  induction 1 as [w|k m m1 t t1 s w' shares E1 E2 _ IH]; [reflexivity|].
  cbn [fst] in *. rewrite IH. cbn [record_share count_step share_a].
  apply run_one_step_fields in E1. rewrite E1. reflexivity.
Qed.

Lemma run_kept (steps : Z) (print_at_end : bool) (print_every : Z)
    (m m' : SchellingModel) (t t' : tape) (out out' : list event) :
  grid_wf m ->
  run steps print_at_end print_every (m, t, out) = Ok (m', t', out') ->
  kept m m' /\ share_a m' = share_a m
  /\ Z.of_nat (length (segregation_shares m')) - steps_run m'
     = Z.of_nat (length (segregation_shares m)) - steps_run m.
Proof.
  intros Hw H. apply run_Ok in H as (out1 & H & _).
  apply run_loop_stepped in H as [shares St].
  pose proof (stepped_share_a _ _ _ _ St) as Hs.
  pose proof (stepped_counters _ _ _ _ St) as (Hl & Hr & Ha).
  apply (stepped_kept _ m) in St as [K _]; [|apply kept_refl, Hw].
  cbn [fst] in *. split_and!; [exact K|exact Hs|].
  rewrite Ha, length_app. lia.
Qed.

(** X16.  A run that returns on a grid of the configured shape has kept the
    configuration, the shape of the grid, and the number of cells of each
    kind: agents move, none is created, lost or changes type. *)
Theorem run_keeps_the_agents (steps : Z) (print_at_end : bool) (print_every : Z)
    (m m' : SchellingModel) (t t' : tape) (out out' : list event) :
  grid_wf m ->
  run steps print_at_end print_every (m, t, out) = Ok (m', t', out') ->
  x_size m' = x_size m /\ y_size m' = y_size m /\ n_agents m' = n_agents m
  /\ share_a m' = share_a m /\ stay_threshold m' = stay_threshold m
  /\ grid_wf m'
  /\ tally TypeA (grid m') = tally TypeA (grid m)
  /\ tally TypeB (grid m') = tally TypeB (grid m)
  /\ tally Empty (grid m') = tally Empty (grid m).
Proof.
  intros Hw H.
  destruct (run_kept _ _ _ _ _ _ _ _ _ Hw H) as ((Kx & Ky & Kn & Kt & Kw & Kc) & Hs & _).
  split_and!; auto.
Qed.

Lemma run_keeps_the_agents_witness :
  match run 1 false 1 (sample, [1; 0; 2; 2], []) with
  | Ok (m', _, _) =>
      grid m' <> grid sample
      /\ tally TypeA (grid m') = 4%nat /\ tally TypeB (grid m') = 1%nat
  | _ => False
  end.
Proof.
  destruct (run 1 false 1 (sample, [1; 0; 2; 2], [])) as [[[m' t'] out']| |] eqn:H.
  - destruct (run_keeps_the_agents 1 false 1 sample m' [1; 0; 2; 2] t' [] out')
      as (_ & _ & _ & _ & _ & _ & HA & HB & _).
    + split; [reflexivity|]. repeat constructor.
    + exact H.
    + vm_compute in H. injection H as <- _ _.
      split; [discriminate|]. split; [exact HA|exact HB].
  - vm_compute in H. discriminate.
  - vm_compute in H. discriminate.
Defined.

Lemma init_share_a (grid_size : Z * Z) (agents : Z) (share threshold : float)
    (t t' : tape) (m : SchellingModel) :
  init grid_size agents share threshold t = Ok (m, t') -> share_a m = share.
Proof.
  unfold init, initialize_grid. intros H. bind_inv H. bind_inv H.
  destruct a0 as [g1 t1]. bind_inv H. destruct a0 as [g2 t2].
  injection H as <- <-. reflexivity.
Qed.

Lemma reachable_facts (m : SchellingModel) :
  reachable m ->
  valid_config m /\ grid_wf m
  /\ Z.of_nat (tally TypeA (grid m)) = n_agents m / 2
  /\ Z.of_nat (tally TypeB (grid m)) = n_agents m
  /\ Z.of_nat (length (segregation_shares m)) = steps_run m.
Proof.
  induction 1 as [gs n sa st t t' m E
                 |steps pae pe m m' t t' out out' _ IH R].
  - pose proof (init_share_a _ _ _ _ _ _ _ E) as Hsa.
    pose proof E as E'. unfold init in E'. bind_inv E'.
    destruct (check_inputs_cases (mkModel (fst gs) (snd gs) n sa st [] [] 0))
      as [[V _]|[_ C]]; [|rewrite C in E0; discriminate].
    apply init_Ok in E
      as (Hx & Hy & Hn & Ht & Hsh & Hsr & _ & _ & Hn1 & _ & _ & Hw & HA & HB).
    unfold valid_config in *.
    cbn [x_size y_size n_agents share_a stay_threshold] in V.
    rewrite Hx, Hy, Hn, Ht, Hsa, Hsh, Hsr, HA, HB.
    assert (0 <= n / 2) by (apply Z.div_pos; lia).
    split_and!; try apply V; try assumption; cbn [length]; lia.
  - destruct IH as (V & Hw & HA & HB & Hl).
    destruct (run_kept _ _ _ _ _ _ _ _ _ Hw R)
      as ((Kx & Ky & Kn & Kt & Kw & Kc) & Hs & Hc).
    unfold valid_config in *. rewrite Kx, Ky, Kn, Kt, Hs, !Kc.
    split_and!; try apply V; try assumption. lia.
Qed.

(** X17.  Every model a program can hold, built by the constructor and taken
    through any number of completed runs, has a valid configuration, a grid of
    the configured shape with [floor(n_agents / 2)] agents of type A and
    [n_agents] of type B, and as many recorded shares as steps run, which is
    what [plot_segregation_curve] needs to plot one against the other. *)
Theorem reachable_models_are_consistent (m : SchellingModel) :
  reachable m ->
  valid_config m /\ grid_wf m
  /\ Z.of_nat (tally TypeA (grid m)) = n_agents m / 2
  /\ Z.of_nat (tally TypeB (grid m)) = n_agents m
  /\ Z.of_nat (length (segregation_shares m)) = steps_run m
  /\ length (range (steps_run m)) = length (segregation_shares m).
Proof.
  intros R. destruct (reachable_facts m R) as (V & Hw & HA & HB & Hl).
  split_and!; try assumption.
  unfold range. rewrite length_map, length_seq. lia.
Qed.

Lemma reachable_models_are_consistent_witness :
  match run 7 true 3 (sample_4x4, [1; 1; 0; 0; 3; 3; 2; 2; 1; 2; 2; 1; 0; 0], []) with
  | Ok (m', _, _) =>
      steps_run m' = 7 /\ length (range (steps_run m')) = length (segregation_shares m')
  | _ => False
  end.
Proof.
  destruct (run 7 true 3 (sample_4x4, [1; 1; 0; 0; 3; 3; 2; 2; 1; 2; 2; 1; 0; 0], []))
    as [[[m' t'] out']| |] eqn:H.
  - split; [vm_compute in H; injection H as <- _ _; reflexivity|].
    apply (reachable_models_are_consistent m').
    apply (reachable_run 7 true 3 sample_4x4 m'
             [1; 1; 0; 0; 3; 3; 2; 2; 1; 2; 2; 1; 0; 0] t' [] out'); [|exact H].
    apply (reachable_init (4, 4) 4 0.5 0 sample_tape [] sample_4x4). reflexivity.
  - vm_compute in H. discriminate.
  - vm_compute in H. discriminate.
Defined.

Lemma run_body_raise (print_every : Z) (m : SchellingModel) (t : tape)
    (out : list event) (e : exn) :
  grid_wf m -> 0 < x_size m -> 0 < y_size m -> n_agents m <> 0 ->
  run_body print_every (m, t, out) = Raise e ->
  e = ZeroDivisionError /\ print_every = 0.
Proof.
  intros Hw Hx Hy Hn H.
  destruct (Z.eq_dec print_every 0) as [->|Hp];
    [|exfalso; eapply run_body_quiet; eauto].
  split; [|reflexivity]. unfold run_body in H.
  destruct (run_one_step m t) as [[m1 t1]| |] eqn:E; cbn [mbind result_bind] in H;
    [|exfalso; eapply (run_one_step_quiet m t); eauto|discriminate].
  pose proof (run_one_step_kept m m m1 t t1 (kept_refl m Hw) E)
    as (_ & _ & Kn & _ & Kw & _).
  unfold get_segregation in H.
  destruct (count_staying_range (count_step m1) Kw) as (s & Es & _).
  rewrite Es in H. cbn [mbind result_bind] in H.
  cbn [count_step n_agents] in H. rewrite Kn in H.
  destruct (Z.eqb_spec (n_agents m) 0); [contradiction|].
  cbn [mbind result_bind] in H. unfold py_mod in H. cbn in H. congruence.
Qed.

Lemma run_loop_raise (k : nat) (print_every : Z) (m : SchellingModel) (t : tape)
    (out : list event) (e : exn) :
  grid_wf m -> 0 < x_size m -> 0 < y_size m -> n_agents m <> 0 ->
  run_loop k print_every (m, t, out) = Raise e ->
  e = ZeroDivisionError /\ print_every = 0 /\ (0 < k)%nat.
Proof.
  revert m t out. induction k as [|k IH]; intros m t out Hw Hx Hy Hn H;
    cbn [run_loop] in H; [discriminate|].
  destruct (run_body print_every (m, t, out)) as [[[m1 t1] out1]|e'|] eqn:E;
    cbn [mbind result_bind] in H; [| |discriminate].
  - apply run_body_Ok in E as (_ & m0 & s & E1 & _ & -> & _).
    pose proof (run_one_step_kept m m m0 t t1 (kept_refl m Hw) E1)
      as (Kx & Ky & Kn & _ & Kw & _).
    apply IH in H as (He & Hp & _);
      cbn [record_share count_step x_size y_size n_agents grid];
      try assumption; try lia.
    split_and!; [assumption..|lia].
  - injection H as ->. apply run_body_raise in E as (He & Hp); try assumption.
    split_and!; [assumption..|lia].
Qed.

(** X18.  On a model a program can hold, a call of [run] raises nothing but
    [ZeroDivisionError], and that only with [print_every = 0] and at least one
    step to make: no index is ever out of range and no other division is by
    zero. *)
Theorem run_raises_only_for_period_zero (m : SchellingModel) (steps : Z)
    (print_at_end : bool) (print_every : Z) (t : tape) (out : list event)
    (e : exn) :
  reachable m ->
  run steps print_at_end print_every (m, t, out) = Raise e ->
  e = ZeroDivisionError /\ print_every = 0 /\ 1 <= steps.
Proof.
  intros R H. destruct (reachable_facts m R) as ((Hx & Hy & _ & Hn & _) & Hw & _).
  unfold run in H.
  destruct (run_loop (Z.to_nat steps) print_every (m, t, out))
    as [[[m1 t1] out1]|e'|] eqn:E; cbn [mbind result_bind] in H; try discriminate.
  injection H as ->.
  apply run_loop_raise in E as (He & Hp & Hk); try assumption; try lia.
  split_and!; [assumption..|lia].
Qed.

Lemma run_raises_only_for_period_zero_witness :
  match run 1000 true 0 (sample_4x4, [0; 0], []) with
  | Raise e => e = ZeroDivisionError
  | _ => False
  end.
Proof.
  destruct (run 1000 true 0 (sample_4x4, [0; 0], [])) as [w|e|] eqn:H.
  - vm_compute in H. discriminate.
  - apply (run_raises_only_for_period_zero sample_4x4 1000 true 0 [0; 0] [] e);
      [|exact H].
    apply (reachable_init (4, 4) 4 0.5 0 sample_tape [] sample_4x4). reflexivity.
  - vm_compute in H. discriminate.
Defined.

(** X19.  On a model a program can hold, [get_segregation] always returns: it
    divides by [n_agents] a number of staying agents that lies between zero
    and the number of agents on the grid, [floor(n_agents / 2) + n_agents]. *)
Theorem get_segregation_returns (m : SchellingModel) :
  reachable m ->
  exists staying,
    count_staying m = Ok staying
    /\ 0 <= staying <= n_agents m / 2 + n_agents m
    /\ get_segregation m = Ok (truediv staying (n_agents m)).
Proof.
  intros R. destruct (reachable_facts m R) as ((_ & _ & _ & Hn & _) & Hw & HA & HB & _).
  destruct (count_staying_range m Hw) as (s & Es & Hs).
  exists s. split_and!; [exact Es| |unfold occupied in Hs; lia|].
  - lia.
  - unfold get_segregation. rewrite Es. cbn [mbind result_bind].
    destruct (Z.eqb_spec (n_agents m) 0); [lia|reflexivity].
Qed.

Lemma get_segregation_returns_witness :
  exists staying,
    count_staying sample_4x4 = Ok staying
    /\ 0 <= staying <= 6
    /\ get_segregation sample_4x4 = Ok (truediv staying 4).
Proof.
  apply (get_segregation_returns sample_4x4).
  apply (reachable_init (4, 4) 4 0.5 0 sample_tape [] sample_4x4). reflexivity.
Defined.

(** ** Printing and the simulation *)





(** ** Rendering *)

Lemma on_light_even (i j : nat) : on_light i j = Nat.even (i + j).
Proof.
  unfold on_light. rewrite Nat.even_add.
  assert (P : forall n, (n mod 2 =? 0)%nat = Nat.even n
                        /\ (n mod 2 =? 1)%nat = negb (Nat.even n)).
  { intros n. destruct (Nat.even n) eqn:E.
    - apply Nat.even_spec in E as [k ->].
      rewrite (Nat.mul_comm 2 k), Nat.Div0.mod_mul. split; reflexivity.
    - assert (O : Nat.odd n = true) by (unfold Nat.odd; now rewrite E).
      apply Nat.odd_spec in O as [k ->].
      rewrite (Nat.add_comm (2 * k) 1), (Nat.mul_comm 2 k), Nat.Div0.mod_add.
      split; reflexivity. }
  destruct (P i) as [-> ->], (P j) as [-> ->].
  destruct (Nat.even i), (Nat.even j); reflexivity.
Qed.

(** X20.  [print_schelling] lays the grid out cell by cell: one line per row,
    one item per cell, the item of cell [(i, j)] being the entry of
    [print_values] for what the cell holds, preceded by the light-grey
    background exactly when [i + j] is even, so that the shading is a
    checkerboard. *)
Theorem print_schelling_is_a_checkerboard
    (bold fg_green fg_blue reset bg_lightgrey : String.string)
    (g : Grid) (i j : nat) (row : list Cell) (c : Cell) :
  g !! i = Some row -> row !! j = Some c ->
  length (print_grid bold fg_green fg_blue reset bg_lightgrey g) = length g
  /\ exists line,
       print_grid bold fg_green fg_blue reset bg_lightgrey g !! i = Some line
       /\ length line = length row
       /\ line !! j
          = Some (if Nat.even (i + j)
                  then String.append bg_lightgrey
                         (print_values bold fg_green fg_blue reset c)
                  else print_values bold fg_green fg_blue reset c)
       /\ on_light i (S j) = negb (on_light i j)
       /\ on_light (S i) j = negb (on_light i j).
Proof.
  intros Hi Hj. unfold print_grid. split.
  - now rewrite length_imap, length_map.
  - rewrite list_lookup_imap, list_lookup_fmap, Hi. cbn [fmap option_fmap option_map].
    eexists. split; [reflexivity|].
    rewrite length_imap, length_map. split; [reflexivity|].
    rewrite list_lookup_imap, list_lookup_fmap, Hj. cbn [fmap option_fmap option_map].
    rewrite on_light_even. split; [reflexivity|].
    rewrite !on_light_even. replace (i + S j)%nat with (S (i + j)) by lia.
    cbn [Nat.add]. rewrite Nat.even_succ, <- Nat.negb_even. auto.
Qed.

Section RenderingSample.

Local Open Scope string_scope.

Lemma print_schelling_is_a_checkerboard_witness :
  exists line,
    print_grid "b" "g" "u" "r" "L" (grid sample) !! 1%nat = Some line
    /\ line !! 0%nat = Some (String.append "b" (String.append "u" (String.append blank_B "r")))
    /\ line !! 1%nat
       = Some (String.append "L"
                 (String.append "b" (String.append "g" (String.append blank_A "r")))).
Proof.
  destruct (print_schelling_is_a_checkerboard "b" "g" "u" "r" "L" (grid sample)
              1 0 [TypeB; TypeA; Empty] TypeB eq_refl eq_refl)
    as (_ & line & Hl & _ & H0 & _).
  exists line. split; [exact Hl|]. split; [exact H0|].
  vm_compute in Hl. injection Hl as <-. reflexivity.
Defined.

End RenderingSample.
